(** * ManualControl: the manual-control arbitration cycle

    A shallow embedding of [ManualControl::Run] together with
    [send_arm_command] and [send_disarm_command]
    (src/modules/manual_control/ManualControl.cpp), and the properties of
    the gesture detector, the override detector and the publication latch.

    Layout:
    - [F32]         single-precision floats, as [spec_float] at precision 24;
    - [Sp]          the [manual_control_setpoint_s] message;
    - [Hysteresis]  the debounce timer used for the two stick gestures;
    - [ManualControlSelector]  the interface of the input selector;
    - [Cycle]       the state of the work item, [Run], and traces of cycles;
    - [OneSlot]     a small selector, to run cycles on concrete inputs;
    - the properties, and the cycle at work on [OneSlot]. *)

From Stdlib Require Import ZArith List Bool Lia SpecFloat.
Import ListNotations.
Open Scope Z_scope.

(** ** Time

    [hrt_abstime] is an unsigned 64-bit count of microseconds; arithmetic on
    it wraps. *)

Definition wrap64 (v : Z) : Z := v mod 2 ^ 64.

(** The literal operators [1_ms], [1_s]: microseconds per unit. *)
Definition ms_1 : Z := 1000.
Definition s_1 : Z := 1000000.

(** ** Single-precision floating point *)

Module F32.

Definition float := spec_float.

Definition prec : Z := 24.
Definition emax : Z := 128.

Definition sub (a b : float) : float := SFsub prec emax a b.
Definition mul (a b : float) : float := SFmul prec emax a b.
Definition neg (a : float) : float := SFopp a.
Definition fabsf (a : float) : float := SFabs a.

(** [a < b] and [a > b] of C: false as soon as one side is NaN. *)
Definition lt (a b : float) : bool := SFltb a b.
Definition gt (a b : float) : bool := SFltb b a.
Definition le (a b : float) : bool := SFleb a b.
Definition eqb (a b : float) : bool := SFeqb a b.

Definition NAN : float := S754_nan.

(** The literals of the source, as the nearest binary32 values. *)
Definition c0_1 : float := S754_finite false 13421773 (-27).   (* 0.1f  *)
Definition c0_9 : float := S754_finite false 15099494 (-24).   (* 0.9f  *)
Definition c0_01 : float := S754_finite false 10737418 (-30).  (* 0.01f *)
Definition c2_0 : float := S754_finite false 8388608 (-22).    (* 2.f   *)
Definition c1_0 : float := S754_finite false 8388608 (-23).    (* 1.0   *)
Definition c0_0 : float := S754_zero false.                    (* 0.0   *)

(** An integer constant converted to float. *)
Definition of_Z (v : Z) : float := binary_normalize prec emax v 0 false.

End F32.

(** ** The published message *)

Module Sp.

Record manual_control_setpoint_s : Type := mk {
  timestamp : Z;
  x : F32.float;
  y : F32.float;
  z : F32.float;
  r : F32.float;
  valid : bool;
  data_source : Z;
  arm_gesture : bool;
  disarm_gesture : bool;
  user_override : bool
}.

Definition set_arm_gesture (b : bool) (s : manual_control_setpoint_s) :=
  mk (timestamp s) (x s) (y s) (z s) (r s) (valid s) (data_source s)
     b (disarm_gesture s) (user_override s).

Definition set_disarm_gesture (b : bool) (s : manual_control_setpoint_s) :=
  mk (timestamp s) (x s) (y s) (z s) (r s) (valid s) (data_source s)
     (arm_gesture s) b (user_override s).

Definition set_user_override (b : bool) (s : manual_control_setpoint_s) :=
  mk (timestamp s) (x s) (y s) (z s) (r s) (valid s) (data_source s)
     (arm_gesture s) (disarm_gesture s) b.

Definition set_timestamp (t : Z) (s : manual_control_setpoint_s) :=
  mk t (x s) (y s) (z s) (r s) (valid s) (data_source s)
     (arm_gesture s) (disarm_gesture s) (user_override s).

End Sp.

(** ** The hysteresis timer *)

Module Hysteresis.

(** Modelled from the spec: the class [systemlib::Hysteresis], of which the
    source only shows the calls [set_hysteresis_time_from],
    [set_state_and_update] and [get_state].  The state is the one of the
    data model: candidate, confirmed, the time the candidate last changed
    and the hold duration, one per direction. *)
Record t : Type := mk {
  confirmed : bool;
  candidate : bool;
  last_change : Z;
  hold_from_true : Z;
  hold_from_false : Z
}.

(** Modelled from the spec: [get_state] returns the confirmed value. *)
Definition get_state (h : t) : bool := confirmed h.

(** Modelled from the spec: the hold duration is set for one direction,
    the one leaving [from_state]; the other direction is untouched. *)
Definition set_hysteresis_time_from (from_state : bool) (new_time : Z) (h : t) : t :=
  if from_state
  then mk (confirmed h) (candidate h) (last_change h) new_time (hold_from_false h)
  else mk (confirmed h) (candidate h) (last_change h) (hold_from_true h) new_time.

(** The hold duration of the transition that would leave the confirmed
    state. *)
Definition hold (h : t) : Z :=
  if confirmed h then hold_from_true h else hold_from_false h.

(** Modelled from the spec: [set_state_and_update] records the candidate
    and, when it flips, the time of the flip; while the candidate differs
    from the confirmed state and the time elapsed since that flip exceeds
    the hold duration, the confirmed state becomes the candidate. *)
Definition set_state_and_update (new_state : bool) (now_us : Z) (h : t) : t :=
  let last := if Bool.eqb new_state (candidate h) then last_change h else now_us in
  if Bool.eqb new_state (confirmed h) then
    mk (confirmed h) new_state last (hold_from_true h) (hold_from_false h)
  else if hold h <? wrap64 (now_us - last) then
    mk new_state new_state last (hold_from_true h) (hold_from_false h)
  else
    mk (confirmed h) new_state last (hold_from_true h) (hold_from_false h).

End Hysteresis.

(** ** The input selector

    [ManualControlSelector] is used by [Run] through the calls below; its
    policy is not part of this file, so it is an interface.  [setpoint()]
    returns a mutable reference: [setpoint] reads through it and
    [setpoint_write] stores through it, and what was stored is what is read
    next.  [set_timeout] is handed the float product of the source; its
    conversion to the type the selector keeps is the selector's. *)

Class ManualControlSelector (input_s : Type) (Sel : Type) : Type := {
  set_rc_in_mode : Z -> Sel -> Sel;
  set_timeout : F32.float -> Sel -> Sel;
  update_manual_control_input : Z -> input_s -> Z -> Sel -> Sel;
  update_time_only : Z -> Sel -> Sel;
  setpoint : Sel -> Sp.manual_control_setpoint_s;
  setpoint_write : Sp.manual_control_setpoint_s -> Sel -> Sel;
  instance : Sel -> Z;
  setpoint_read_write : forall sp s, setpoint (setpoint_write sp s) = sp
}.

(** ** The command message *)

Record vehicle_command_s : Type := mk_command {
  cmd_timestamp : Z;
  command : Z;
  param1 : F32.float;
  param3 : F32.float;
  target_system : Z;
  target_component : Z
}.

(** What a cycle sends out, in order. *)
Inductive Event : Type :=
| Publish (sp : Sp.manual_control_setpoint_s)
| Command (c : vehicle_command_s).

(** The parameters read by [updateParams()]. *)
Record Params : Type := mk_params {
  RC_ARM_HYST : Z;
  COM_RC_IN_MODE : Z;
  COM_RC_LOSS_T : F32.float;
  COM_RC_STICK_OV : F32.float
}.

(** Constants of headers and message definitions that the cycle uses. *)
Class Constants : Type := {
  MAX_MANUAL_INPUT_COUNT : nat;
  SOURCE_RC : Z;
  VEHICLE_CMD_COMPONENT_ARM_DISARM : Z
}.

(** ** The work item and its cycle *)

Section Cycle.

(** The input and switch messages are only handed on, never inspected. *)
Context {manual_control_input_s manual_control_switches_s : Type}.
Context {Sel : Type} `{Selector : ManualControlSelector manual_control_input_s Sel}.

Context `{K : Constants}.

(** The members of [ManualControl]. *)
Record ManualControl : Type := mk_mc {
  _selector : Sel;
  _stick_arm_hysteresis : Hysteresis.t;
  _stick_disarm_hysteresis : Hysteresis.t;
  _previous_arm_gesture : bool;
  _previous_disarm_gesture : bool;
  _previous_x : F32.float;
  _previous_y : F32.float;
  _previous_z : F32.float;
  _previous_r : F32.float;
  _published_invalid_once : bool;
  _last_selected_input : Z;
  _param_rc_arm_hyst : Z;
  _param_com_rc_in_mode : Z;
  _param_com_rc_loss_t : F32.float;
  _param_com_rc_stick_ov : F32.float
}.

(** What one invocation of [Run] reads from outside: the exit request, a
    pending parameter update with the stored parameters, the clock (once
    in [Run], once in each command sender), what each input subscription
    delivers, and what the switches subscription delivers. *)
Record CycleInput : Type := mk_io {
  should_exit : bool;
  parameter_update : option Params;
  hrt_now : Z;
  hrt_arm_command : Z;
  hrt_disarm_command : Z;
  _manual_control_input_subs : nat -> option manual_control_input_s;
  _manual_control_switches_sub : option manual_control_switches_s
}.

(** [send_arm_command] and [send_disarm_command]. *)
Definition send_arm_command (t : Z) : Event :=
  Command (mk_command t VEHICLE_CMD_COMPONENT_ARM_DISARM F32.c1_0 F32.c1_0 1 1).

Definition send_disarm_command (t : Z) : Event :=
  Command (mk_command t VEHICLE_CMD_COMPONENT_ARM_DISARM F32.c0_0 F32.c1_0 1 1).

(** Lines 72-84: the parameters are reloaded and the derived constants
    set again.  [RC_ARM_HYST] is a 32-bit integer multiplied by the
    unsigned 64-bit [1_ms], [COM_RC_LOSS_T] a float multiplied by [1_s]
    converted to float. *)
Definition reload (p : Params) (mc : ManualControl) : ManualControl :=
  mk_mc
    (set_timeout (F32.mul (COM_RC_LOSS_T p) (F32.of_Z s_1))
       (set_rc_in_mode (COM_RC_IN_MODE p) (_selector mc)))
    (Hysteresis.set_hysteresis_time_from false (wrap64 (RC_ARM_HYST p * ms_1))
       (_stick_arm_hysteresis mc))
    (Hysteresis.set_hysteresis_time_from false (wrap64 (RC_ARM_HYST p * ms_1))
       (_stick_disarm_hysteresis mc))
    (_previous_arm_gesture mc) (_previous_disarm_gesture mc)
    (_previous_x mc) (_previous_y mc) (_previous_z mc) (_previous_r mc)
    (_published_invalid_once mc) (_last_selected_input mc)
    (RC_ARM_HYST p) (COM_RC_IN_MODE p) (COM_RC_LOSS_T p) (COM_RC_STICK_OV p).

Definition check_parameters (upd : option Params) (mc : ManualControl) : ManualControl :=
  match upd with
  | Some p => reload p mc
  | None => mc
  end.

(** Lines 89-97: the loop over the input subscriptions, from index [i]
    for [n] more rounds.  Returns the selector and [found_at_least_one]. *)
Fixpoint poll_inputs (now : Z) (subs : nat -> option manual_control_input_s)
         (i n : nat) (found : bool) (sel : Sel) : Sel * bool :=
  match n with
  | O => (sel, found)
  | S n' =>
      match subs i with
      | Some m =>
          poll_inputs now subs (S i) n' true
            (update_manual_control_input now m (Z.of_nat i) sel)
      | None => poll_inputs now subs (S i) n' found sel
      end
  end.

(** Lines 86-108: the selector once all that arrived has been fed to it. *)
Definition ingest (io : CycleInput) (sel : Sel) : Sel :=
  let now := hrt_now io in
  let '(sel1, found_at_least_one) :=
    poll_inputs now (_manual_control_input_subs io) 0 MAX_MANUAL_INPUT_COUNT false sel in
  if negb found_at_least_one then update_time_only now sel1 else sel1.

(** Lines 114-116. *)
Definition right_stick_centered (sp : Sp.manual_control_setpoint_s) : bool :=
  F32.lt (F32.fabsf (Sp.x sp)) F32.c0_1 && F32.lt (F32.fabsf (Sp.y sp)) F32.c0_1.

Definition stick_lower_left (sp : Sp.manual_control_setpoint_s) : bool :=
  F32.lt (Sp.z sp) F32.c0_1 && F32.lt (Sp.r sp) (F32.neg F32.c0_9).

Definition stick_lower_right (sp : Sp.manual_control_setpoint_s) : bool :=
  F32.lt (Sp.z sp) F32.c0_1 && F32.gt (Sp.r sp) F32.c0_9.

(** Lines 140-149. *)
Definition minimum_stick_change (mc : ManualControl) : F32.float :=
  F32.mul F32.c0_01 (_param_com_rc_stick_ov mc).

Definition rpy_moved (mc : ManualControl) (sp : Sp.manual_control_setpoint_s) : bool :=
  F32.gt (F32.fabsf (F32.sub (Sp.x sp) (_previous_x mc))) (minimum_stick_change mc)
  || F32.gt (F32.fabsf (F32.sub (Sp.y sp) (_previous_y mc))) (minimum_stick_change mc)
  || F32.gt (F32.fabsf (F32.sub (Sp.r sp) (_previous_r mc))) (minimum_stick_change mc).

Definition throttle_moved (mc : ManualControl) (sp : Sp.manual_control_setpoint_s) : bool :=
  F32.gt (F32.mul (F32.fabsf (F32.sub (Sp.z sp) (_previous_z mc))) F32.c2_0)
         (minimum_stick_change mc).

(** Lines 110-176: the branch of a valid setpoint.  [sel] is the selector
    after [ingest]; every read and write of [_selector.setpoint()] goes
    through the reference. *)
Definition run_valid (io : CycleInput) (mc : ManualControl) (sel : Sel)
  : ManualControl * list Event :=
  let now := hrt_now io in
  let switches_updated :=
    match _manual_control_switches_sub io with Some _ => true | None => false end in
  let arm_h :=
    Hysteresis.set_state_and_update
      (stick_lower_right (setpoint sel) && right_stick_centered (setpoint sel))
      (Sp.timestamp (setpoint sel)) (_stick_arm_hysteresis mc) in
  let disarm_h :=
    Hysteresis.set_state_and_update
      (stick_lower_left (setpoint sel) && right_stick_centered (setpoint sel))
      (Sp.timestamp (setpoint sel)) (_stick_disarm_hysteresis mc) in
  let sel1 := setpoint_write (Sp.set_arm_gesture (Hysteresis.get_state arm_h) (setpoint sel)) sel in
  let sel2 := setpoint_write (Sp.set_disarm_gesture (Hysteresis.get_state disarm_h) (setpoint sel1)) sel1 in
  let '(previous_arm, arm_events) :=
    if Sp.arm_gesture (setpoint sel2) && negb (_previous_arm_gesture mc)
    then (true, [send_arm_command (hrt_arm_command io)])
    else if negb (Sp.arm_gesture (setpoint sel2))
         then (false, [])
         else (_previous_arm_gesture mc, []) in
  let '(previous_disarm, disarm_events) :=
    if Sp.disarm_gesture (setpoint sel2) && negb (_previous_disarm_gesture mc)
    then (true, [send_disarm_command (hrt_disarm_command io)])
    else if negb (Sp.disarm_gesture (setpoint sel2))
         then (false, [])
         else (_previous_disarm_gesture mc, []) in
  let sel3 :=
    setpoint_write
      (Sp.set_user_override (rpy_moved mc (setpoint sel2) || throttle_moved mc (setpoint sel2))
         (setpoint sel2)) sel2 in
  let px := Sp.x (setpoint sel3) in
  let py := Sp.y (setpoint sel3) in
  let pz := Sp.z (setpoint sel3) in
  let pr := Sp.r (setpoint sel3) in
  let sel3' :=
    if switches_updated
    then (* only use switches if current source is RC as well *)
         if Z.eqb (Sp.data_source (setpoint sel3)) SOURCE_RC
         then sel3 (* handling of buttons: nothing yet *)
         else sel3
    else sel3 in
  let sel4 := setpoint_write (Sp.set_timestamp now (setpoint sel3')) sel3' in
  let last :=
    if Z.eqb (_last_selected_input mc) (instance sel4)
    then _last_selected_input mc else instance sel4 in
  (mk_mc sel4 arm_h disarm_h previous_arm previous_disarm px py pz pr
     false last
     (_param_rc_arm_hyst mc) (_param_com_rc_in_mode mc)
     (_param_com_rc_loss_t mc) (_param_com_rc_stick_ov mc),
   arm_events ++ disarm_events ++ [Publish (setpoint sel4)]).

(** Lines 177-188: the branch of an invalid setpoint. *)
Definition run_invalid (mc : ManualControl) (sel : Sel) : ManualControl * list Event :=
  (mk_mc sel (_stick_arm_hysteresis mc) (_stick_disarm_hysteresis mc)
     (_previous_arm_gesture mc) (_previous_disarm_gesture mc)
     F32.NAN F32.NAN F32.NAN F32.NAN
     true (-1)
     (_param_rc_arm_hyst mc) (_param_com_rc_in_mode mc)
     (_param_com_rc_loss_t mc) (_param_com_rc_stick_ov mc),
   if negb (_published_invalid_once mc) then [Publish (setpoint sel)] else []).

(** [ManualControl::Run].  The performance counters, the log line, the
    callback registrations and the rescheduling have no part in the state
    or in what is sent, and are left out. *)
Definition Run (mc : ManualControl) (io : CycleInput) : ManualControl * list Event :=
  if should_exit io then (mc, [])
  else
    let mc1 := check_parameters (parameter_update io) mc in
    let sel := ingest io (_selector mc1) in
    if Sp.valid (setpoint sel)
    then run_valid io mc1 sel
    else run_invalid mc1 sel.

(** *** The valid branch, step by step *)

(** The two timers once the gesture step of a valid cycle has fed them the
    stick position of [sp]. *)
Definition arm_timer_after (mc : ManualControl) (sp : Sp.manual_control_setpoint_s)
  : Hysteresis.t :=
  Hysteresis.set_state_and_update
    (stick_lower_right sp && right_stick_centered sp) (Sp.timestamp sp)
    (_stick_arm_hysteresis mc).

Definition disarm_timer_after (mc : ManualControl) (sp : Sp.manual_control_setpoint_s)
  : Hysteresis.t :=
  Hysteresis.set_state_and_update
    (stick_lower_left sp && right_stick_centered sp) (Sp.timestamp sp)
    (_stick_disarm_hysteresis mc).

(** The setpoint [sp] with the three flags and the time stamp written. *)
Definition annotated (now : Z) (mc : ManualControl) (sp : Sp.manual_control_setpoint_s)
  : Sp.manual_control_setpoint_s :=
  Sp.mk now (Sp.x sp) (Sp.y sp) (Sp.z sp) (Sp.r sp) (Sp.valid sp) (Sp.data_source sp)
        (Hysteresis.get_state (arm_timer_after mc sp))
        (Hysteresis.get_state (disarm_timer_after mc sp))
        (rpy_moved mc sp || throttle_moved mc sp).

(** *** Traces of cycles *)

(** The cycles of a run: after each one, the state and what it sent. *)
Fixpoint run_cycles (mc : ManualControl) (ios : list CycleInput)
  : list (ManualControl * list Event) :=
  match ios with
  | [] => []
  | io :: rest => Run mc io :: run_cycles (fst (Run mc io)) rest
  end.

(** The state after all cycles of a run. *)
Definition final (mc : ManualControl) (ios : list CycleInput) : ManualControl :=
  fold_left (fun m io => fst (Run m io)) ios mc.

(** The setpoint the selector holds once the cycle has fed it, on which the
    cycle branches. *)
Definition selected (mc : ManualControl) (io : CycleInput) : Sp.manual_control_setpoint_s :=
  setpoint (ingest io (_selector (check_parameters (parameter_update io) mc))).

Definition cycle_valid (mc : ManualControl) (io : CycleInput) : bool :=
  negb (should_exit io) && Sp.valid (selected mc io).

Definition cycle_invalid (mc : ManualControl) (io : CycleInput) : bool :=
  negb (should_exit io) && negb (Sp.valid (selected mc io)).

(** Every cycle of the run, started in [mc], is an invalid one. *)
Fixpoint all_invalid (mc : ManualControl) (ios : list CycleInput) : bool :=
  match ios with
  | [] => true
  | io :: rest => cycle_invalid mc io && all_invalid (fst (Run mc io)) rest
  end.

(** The confirmed gesture states held by the work item. *)
Definition confirmed_arm (mc : ManualControl) : bool :=
  Hysteresis.get_state (_stick_arm_hysteresis mc).

Definition confirmed_disarm (mc : ManualControl) : bool :=
  Hysteresis.get_state (_stick_disarm_hysteresis mc).

(** The edge memory agrees with the confirmed states: so it is when the
    work item is constructed, and after every valid cycle. *)
Definition edge_memory_ok (mc : ManualControl) : Prop :=
  _previous_arm_gesture mc = confirmed_arm mc
  /\ _previous_disarm_gesture mc = confirmed_disarm mc.

(** The same cycle with other switches, and without the parameter
    update. *)
Definition with_switches (sw : option manual_control_switches_s) (io : CycleInput)
  : CycleInput :=
  mk_io (should_exit io) (parameter_update io) (hrt_now io) (hrt_arm_command io)
        (hrt_disarm_command io) (_manual_control_input_subs io) sw.

Definition without_update (io : CycleInput) : CycleInput :=
  mk_io (should_exit io) None (hrt_now io) (hrt_arm_command io)
        (hrt_disarm_command io) (_manual_control_input_subs io)
        (_manual_control_switches_sub io).

(** *** Further readings of a cycle *)

(** The same cycle with other deliveries on the input subscriptions. *)
Definition with_inputs (subs : nat -> option manual_control_input_s) (io : CycleInput)
  : CycleInput :=
  mk_io (should_exit io) (parameter_update io) (hrt_now io) (hrt_arm_command io)
        (hrt_disarm_command io) subs (_manual_control_switches_sub io).

(** The samples that arrived in a cycle, each with its slot, in slot
    order. *)
Definition arrivals (io : CycleInput) : list (nat * manual_control_input_s) :=
  flat_map (fun i => match _manual_control_input_subs io i with
                     | Some m => [(i, m)]
                     | None => []
                     end)
           (seq 0 MAX_MANUAL_INPUT_COUNT).

(** One arrived sample handed to the selector. *)
Definition feed (now : Z) (sel : Sel) (a : nat * manual_control_input_s) : Sel :=
  update_manual_control_input now (snd a) (Z.of_nat (fst a)) sel.

(** The number of valid cycles in a run started in [mc]. *)
Fixpoint valid_cycles (mc : ManualControl) (ios : list CycleInput) : nat :=
  match ios with
  | [] => O
  | io :: rest =>
      ((if cycle_valid mc io then 1 else 0) + valid_cycles (fst (Run mc io)) rest)%nat
  end.

(** A command as the two senders build it: the arm/disarm command for
    system 1, component 1, with the stick as origin in [param3], and either
    1.0 at the time read by the arm sender or 0.0 at the time read by the
    disarm sender in [param1] and the time stamp. *)
Definition stick_command (io : CycleInput) (c : vehicle_command_s) : Prop :=
  command c = VEHICLE_CMD_COMPONENT_ARM_DISARM
  /\ param3 c = F32.c1_0
  /\ target_system c = 1
  /\ target_component c = 1
  /\ ((param1 c = F32.c1_0 /\ cmd_timestamp c = hrt_arm_command io)
      \/ (param1 c = F32.c0_0 /\ cmd_timestamp c = hrt_disarm_command io)).

End Cycle.

(** A timer [h'] that has not been fed since [h]: the confirmed state, the
    candidate, the time of its last flip and the hold when leaving true are
    those of [h]. *)
Definition not_fed (h h' : Hysteresis.t) : Prop :=
  Hysteresis.confirmed h' = Hysteresis.confirmed h
  /\ Hysteresis.candidate h' = Hysteresis.candidate h
  /\ Hysteresis.last_change h' = Hysteresis.last_change h
  /\ Hysteresis.hold_from_true h' = Hysteresis.hold_from_true h.

(** ** Two timers that release at once

    The relation kept between the arm timer [a] and the disarm timer [d]:
    no hold when leaving true, holds when leaving false that are not
    negative, not both confirmed, and when one is confirmed while the other
    one's candidate is up, the first one's candidate went down at the same
    time (modulo the width of the clock). *)
Definition timers_exclusive (a d : Hysteresis.t) : Prop :=
  Hysteresis.hold_from_true a = 0 /\ Hysteresis.hold_from_true d = 0
  /\ 0 <= Hysteresis.hold_from_false a /\ 0 <= Hysteresis.hold_from_false d
  /\ (Hysteresis.confirmed a = true -> Hysteresis.confirmed d = true -> False)
  /\ (Hysteresis.confirmed a = true -> Hysteresis.candidate d = true ->
      Hysteresis.candidate a = false
      /\ wrap64 (Hysteresis.last_change a) = wrap64 (Hysteresis.last_change d))
  /\ (Hysteresis.confirmed d = true -> Hysteresis.candidate a = true ->
      Hysteresis.candidate d = false
      /\ wrap64 (Hysteresis.last_change d) = wrap64 (Hysteresis.last_change a)).

(** ** Reading a trace *)

(** A command is an arm command when [param1] is 1.0, a disarm command when
    it is 0.0. *)
Definition is_arm_command (e : Event) : bool :=
  match e with
  | Command c => F32.eqb (param1 c) F32.c1_0
  | Publish _ => false
  end.

Definition is_disarm_command (e : Event) : bool :=
  match e with
  | Command c => F32.eqb (param1 c) F32.c0_0
  | Publish _ => false
  end.

Definition is_publish (e : Event) : bool :=
  match e with
  | Publish _ => true
  | Command _ => false
  end.

Definition count (f : Event -> bool) (evs : list Event) : nat :=
  length (filter f evs).

(** The setpoints published by a cycle. *)
Fixpoint published (evs : list Event) : list Sp.manual_control_setpoint_s :=
  match evs with
  | [] => []
  | Publish sp :: rest => sp :: published rest
  | Command _ :: rest => published rest
  end.

(** The commands sent by a cycle. *)
Fixpoint commands (evs : list Event) : list vehicle_command_s :=
  match evs with
  | [] => []
  | Command c :: rest => c :: commands rest
  | Publish _ :: rest => commands rest
  end.

(** The number of setpoints with the validity flag down among those a
    cycle published. *)
Definition invalid_published (evs : list Event) : nat :=
  length (filter (fun sp => negb (Sp.valid sp)) (published evs)).

(** The total of [f] over the cycles of a run. *)
Definition total {A : Type} (f : A -> nat) (l : list A) : nat :=
  fold_right (fun c n => (f c + n)%nat) O l.

(** For a boolean signal sampled once per cycle, 1 at each cycle where it
    goes from false to true and 0 elsewhere; [prev] is its value before the
    first cycle. *)
Fixpoint rising_edges (prev : bool) (signal : list bool) : list nat :=
  match signal with
  | [] => []
  | b :: rest => (if negb prev && b then 1%nat else 0%nat) :: rising_edges b rest
  end.

(** The gesture candidates as the specification words them. *)
Definition arm_candidate (sp : Sp.manual_control_setpoint_s) : bool :=
  F32.lt (Sp.z sp) F32.c0_1 && F32.gt (Sp.r sp) F32.c0_9
  && F32.lt (F32.fabsf (Sp.x sp)) F32.c0_1 && F32.lt (F32.fabsf (Sp.y sp)) F32.c0_1.

Definition disarm_candidate (sp : Sp.manual_control_setpoint_s) : bool :=
  F32.lt (Sp.z sp) F32.c0_1 && F32.lt (Sp.r sp) (F32.neg F32.c0_9)
  && F32.lt (F32.fabsf (Sp.x sp)) F32.c0_1 && F32.lt (F32.fabsf (Sp.y sp)) F32.c0_1.

(** ** A concrete selector, to run the cycle on inputs *)

Module OneSlot.

(** An input sample: the axes, the origin tag and the time of the sample. *)
Record input : Type := mk_input {
  i_timestamp : Z;
  i_x : F32.float;
  i_y : F32.float;
  i_z : F32.float;
  i_r : F32.float;
  i_data_source : Z
}.

Record t : Type := mk {
  cur : Sp.manual_control_setpoint_s;
  slot : Z;
  updated_at : Z;
  timeout_us : F32.float;
  rc_in_mode : Z
}.

(** Modelled from the spec: a selector with the contract of the Input
    Selector and the policy that the latest sample wins.  [update_slot]
    records the sample and marks it live; [update_time_only] clears the
    validity flag and sets the slot index to -1 once no sample arrived
    within the timeout. *)
Definition update_slot (now : Z) (m : input) (i : Z) (s : t) : t :=
  mk (Sp.mk (i_timestamp m) (i_x m) (i_y m) (i_z m) (i_r m) true (i_data_source m)
        (Sp.arm_gesture (cur s)) (Sp.disarm_gesture (cur s)) (Sp.user_override (cur s)))
     i now (timeout_us s) (rc_in_mode s).

Definition expire (now : Z) (s : t) : t :=
  if F32.lt (timeout_us s) (F32.of_Z (wrap64 (now - updated_at s)))
  then mk (Sp.mk (Sp.timestamp (cur s)) (Sp.x (cur s)) (Sp.y (cur s)) (Sp.z (cur s))
             (Sp.r (cur s)) false (Sp.data_source (cur s))
             (Sp.arm_gesture (cur s)) (Sp.disarm_gesture (cur s))
             (Sp.user_override (cur s)))
          (-1) (updated_at s) (timeout_us s) (rc_in_mode s)
  else s.

#[export] Instance selector : ManualControlSelector input t := {|
  set_rc_in_mode := fun m s => mk (cur s) (slot s) (updated_at s) (timeout_us s) m;
  set_timeout := fun d s => mk (cur s) (slot s) (updated_at s) d (rc_in_mode s);
  update_manual_control_input := update_slot;
  update_time_only := expire;
  setpoint := cur;
  setpoint_write := fun sp s => mk sp (slot s) (updated_at s) (timeout_us s) (rc_in_mode s);
  instance := slot;
  setpoint_read_write := fun _ _ => eq_refl
|}.

(** A work item as it is constructed: nothing selected, both gestures
    unconfirmed, no previous axis values, latch clear. *)
Definition idle_setpoint : Sp.manual_control_setpoint_s :=
  Sp.mk 0 F32.NAN F32.NAN F32.NAN F32.NAN false 0 false false false.

Definition fresh_timer : Hysteresis.t := Hysteresis.mk false false 0 0 0.

Definition fresh : @ManualControl t :=
  mk_mc (mk idle_setpoint (-1) 0 F32.c0_0 0) fresh_timer fresh_timer false false
        F32.NAN F32.NAN F32.NAN F32.NAN false (-1) 0 0 F32.c0_0 F32.c0_0.

(** Parameters: 300 ms of hold, timeout of half a second, 12 percent. *)
Definition params : Params :=
  mk_params 300 0 (S754_finite false 8388608 (-24)) (S754_finite false 12582912 (-20)).

(** Stick positions. *)
Definition centred : F32.float := S754_zero false.
Definition z_low : F32.float := S754_finite false 13421773 (-28).    (* 0.05 *)
Definition r_right : F32.float := S754_finite false 15938355 (-24).  (* 0.95 *)
Definition r_left : F32.float := S754_finite true 15938355 (-24).    (* -0.95 *)
Definition z_mid : F32.float := S754_finite false 8388608 (-24).     (* 0.5 *)

Definition arm_stick (t0 : Z) : input := mk_input t0 centred centred z_low r_right 1.
Definition disarm_stick (t0 : Z) : input := mk_input t0 centred centred z_low r_left 1.
Definition mid_stick (t0 : Z) : input := mk_input t0 centred centred z_mid centred 1.

(** A cycle at time [now]: a sample on channel 0 or none, with or without
    a parameter update, no switches. *)
Definition cycle (upd : option Params) (now : Z) (m : option input)
  : @CycleInput input unit :=
  mk_io false upd now (now + 1) (now + 2)
        (fun i => match i with O => m | _ => None end) None.

#[export] Instance constants : Constants := {|
  MAX_MANUAL_INPUT_COUNT := 3;
  SOURCE_RC := 1;
  VEHICLE_CMD_COMPONENT_ARM_DISARM := 400
|}.

(** The same work item with an arm timer that holds 7 microseconds when
    leaving true. *)
Definition held : @ManualControl t :=
  mk_mc (mk idle_setpoint (-1) 0 F32.c0_0 0) (Hysteresis.mk false false 0 7 0) fresh_timer
        false false F32.NAN F32.NAN F32.NAN F32.NAN false (-1) 0 0 F32.c0_0 F32.c0_0.

(** A cycle with a parameter update and no input. *)
Definition reload_cycle : @CycleInput input unit := cycle (Some params) 1000000 None.

(** The arm stick held for four cycles of 200 ms, released for two, held
    again for three. *)
Definition hold_release_hold : list (@CycleInput input unit) :=
  [ cycle (Some params) 1000000 (Some (arm_stick 1000000));
    cycle None 1200000 (Some (arm_stick 1200000));
    cycle None 1400000 (Some (arm_stick 1400000));
    cycle None 1600000 (Some (arm_stick 1600000));
    cycle None 1800000 (Some (mid_stick 1800000));
    cycle None 2000000 (Some (mid_stick 2000000));
    cycle None 2200000 (Some (arm_stick 2200000));
    cycle None 2400000 (Some (arm_stick 2400000));
    cycle None 2600000 (Some (arm_stick 2600000)) ].

(** The arm stick held until the gesture is confirmed, then the disarm
    stick. *)
Definition arm_then_disarm : list (@CycleInput input unit) :=
  [ cycle (Some params) 1000000 (Some (arm_stick 1000000));
    cycle None 1200000 (Some (arm_stick 1200000));
    cycle None 1400000 (Some (arm_stick 1400000));
    cycle None 1600000 (Some (disarm_stick 1600000));
    cycle None 1800000 (Some (disarm_stick 1800000));
    cycle None 2000000 (Some (disarm_stick 2000000)) ].

(** Three cycles without any input, the last sample being older than the
    timeout. *)
Definition silence : list (@CycleInput input unit) :=
  [ cycle None 2400000 None; cycle None 2600000 None; cycle None 2800000 None ].

(** The work item once the arm gesture is confirmed: after the first three
    cycles of [hold_release_hold]. *)
Definition armed : @ManualControl t :=
  final fresh (firstn 3 hold_release_hold).

(** A valid cycle with the arm stick, and one with the stick moved to the
    middle. *)
Definition arm_cycle (now : Z) : @CycleInput input unit :=
  cycle None now (Some (arm_stick (now - 5000))).

Definition mid_cycle (now : Z) : @CycleInput input unit :=
  cycle None now (Some (mid_stick (now - 5000))).

End OneSlot.

(** * Properties *)

(** ** Floats *)

(** The literals are the decimal constants rounded to binary32, and are
    well-formed binary32 values. *)
Example literals_rounded :
  SFdiv F32.prec F32.emax (F32.of_Z 1) (F32.of_Z 10) = F32.c0_1
  /\ SFdiv F32.prec F32.emax (F32.of_Z 9) (F32.of_Z 10) = F32.c0_9
  /\ SFdiv F32.prec F32.emax (F32.of_Z 1) (F32.of_Z 100) = F32.c0_01
  /\ F32.of_Z 2 = F32.c2_0
  /\ F32.of_Z 1 = F32.c1_0.
Proof. vm_compute. repeat split. Qed.

Example literals_valid :
  forallb (valid_binary F32.prec F32.emax)
          [F32.c0_1; F32.c0_9; F32.c0_01; F32.c2_0; F32.c1_0; F32.c0_0] = true.
Proof. vm_compute. reflexivity. Qed.

Lemma gt_nan_false (m : F32.float) : F32.gt F32.NAN m = false.
Proof. destruct m; reflexivity. Qed.

Lemma sub_nan_r (a : F32.float) : F32.sub a F32.NAN = F32.NAN.
Proof. destruct a; reflexivity. Qed.

Lemma mul_nan_l (a : F32.float) : F32.mul F32.NAN a = F32.NAN.
Proof. reflexivity. Qed.

Lemma compare_antisym (a b : F32.float) :
  SFcompare b a = option_map CompOpp (SFcompare a b).
Proof.
  destruct a as [sa|sa| |sa ma ea], b as [sb|sb| |sb mb eb]; simpl;
    try reflexivity; try (destruct sa; reflexivity); try (destruct sb; reflexivity);
    try (destruct sa, sb; reflexivity).
  destruct sa, sb; simpl; try reflexivity;
    rewrite (Z.compare_antisym ea eb); destruct (ea ?= eb); simpl; try reflexivity;
    rewrite (Pos.compare_cont_antisym ma mb Eq); simpl;
    try rewrite CompOpp_involutive; reflexivity.
Qed.

(** At or below the threshold is not above it. *)
Lemma le_not_gt (a b : F32.float) : F32.le a b = true -> F32.gt a b = false.
Proof.
  unfold F32.le, F32.gt, SFleb, SFltb. rewrite (compare_antisym a b).
  destruct (SFcompare a b) as [[]|]; simpl; congruence.
Qed.

(** Strongly to the right and strongly to the left exclude each other. *)
Lemma right_not_left (v : F32.float) :
  F32.gt v F32.c0_9 = true -> F32.lt v (F32.neg F32.c0_9) = false.
Proof.
  unfold F32.gt, F32.lt, SFltb, F32.neg, F32.c0_9.
  destruct v as [s|s| |s m e]; cbn [SFopp SFcompare negb].
  - discriminate.
  - destruct s; [discriminate | reflexivity].
  - discriminate.
  - destruct s; [discriminate | reflexivity].
Qed.

(** ** The hysteresis timer *)

Lemma set_time_confirmed b d h :
  Hysteresis.confirmed (Hysteresis.set_hysteresis_time_from b d h) = Hysteresis.confirmed h.
Proof. destruct b; reflexivity. Qed.

Lemma set_time_candidate b d h :
  Hysteresis.candidate (Hysteresis.set_hysteresis_time_from b d h) = Hysteresis.candidate h.
Proof. destruct b; reflexivity. Qed.

Lemma set_time_last_change b d h :
  Hysteresis.last_change (Hysteresis.set_hysteresis_time_from b d h)
  = Hysteresis.last_change h.
Proof. destruct b; reflexivity. Qed.

Lemma update_hold_from_false c n h :
  Hysteresis.hold_from_false (Hysteresis.set_state_and_update c n h)
  = Hysteresis.hold_from_false h.
Proof.
  unfold Hysteresis.set_state_and_update.
  destruct (Bool.eqb c (Hysteresis.confirmed h)); [reflexivity|].
  destruct (Hysteresis.hold h <? _); reflexivity.
Qed.

Lemma update_hold_from_true c n h :
  Hysteresis.hold_from_true (Hysteresis.set_state_and_update c n h)
  = Hysteresis.hold_from_true h.
Proof.
  unfold Hysteresis.set_state_and_update.
  destruct (Bool.eqb c (Hysteresis.confirmed h)); [reflexivity|].
  destruct (Hysteresis.hold h <? _); reflexivity.
Qed.

Lemma update_candidate c n h :
  Hysteresis.candidate (Hysteresis.set_state_and_update c n h) = c.
Proof.
  unfold Hysteresis.set_state_and_update.
  destruct (Bool.eqb c (Hysteresis.confirmed h)); [reflexivity|].
  destruct (Hysteresis.hold h <? _); reflexivity.
Qed.

(** ** Two timers fed exclusive candidates *)

Lemma wrap64_nonneg v : 0 <= wrap64 v.
Proof. unfold wrap64. apply Z.mod_pos_bound. reflexivity. Qed.

Lemma wrap64_self t0 : wrap64 (t0 - t0) = 0.
Proof. rewrite Z.sub_diag. reflexivity. Qed.

Lemma wrap64_sub_congr t0 a b : wrap64 a = wrap64 b -> wrap64 (t0 - a) = wrap64 (t0 - b).
Proof.
  unfold wrap64. intros E.
  rewrite (Zminus_mod t0 a), (Zminus_mod t0 b), E. reflexivity.
Qed.

Lemma wrap64_sub_zero t0 a : wrap64 (t0 - a) = 0 -> wrap64 a = wrap64 t0.
Proof.
  unfold wrap64. intros E.
  replace a with (t0 - (t0 - a)) at 1 by ring.
  rewrite Zminus_mod, E, Z.sub_0_r, Z.mod_mod; [reflexivity | discriminate].
Qed.

Ltac timer_fields :=
  cbn [Hysteresis.confirmed Hysteresis.candidate Hysteresis.last_change
       Hysteresis.hold_from_true Hysteresis.hold_from_false Hysteresis.hold
       Bool.eqb] in *.

Lemma timers_exclusive_step (a d : Hysteresis.t) (ca cd : bool) (ts : Z) :
  timers_exclusive a d ->
  (ca = true -> cd = true -> False) ->
  timers_exclusive (Hysteresis.set_state_and_update ca ts a)
                   (Hysteresis.set_state_and_update cd ts d).
Proof.
  destruct a as [fa ka la ta ha], d as [fd kd ld td hd].
  unfold timers_exclusive, Hysteresis.set_state_and_update. timer_fields.
  intros (-> & -> & Ha & Hd & X & IA & ID) C.
  pose proof (wrap64_nonneg (ts - la)) as Na.
  pose proof (wrap64_nonneg (ts - ld)) as Nd.
  pose proof (wrap64_self ts) as S0.
  pose proof (wrap64_sub_congr ts la ld) as Cad.
  pose proof (wrap64_sub_congr ts ld la) as Cda.
  pose proof (wrap64_sub_zero ts la) as Za.
  pose proof (wrap64_sub_zero ts ld) as Zd.
  destruct ca, cd, fa, ka, fd, kd; timer_fields;
    try (exfalso; auto; fail);
    repeat match goal with
           | |- context [?u <? ?v] => destruct (Z.ltb_spec u v)
           end;
    timer_fields;
    repeat split; try assumption; try discriminate; try (intros; exfalso; auto; fail).
  all: try (intros; lia).
  all: try (intros; symmetry; auto; fail).
  all: try (intros; auto; fail).
Qed.

(** ** Reading the events of the command senders *)

Lemma count_app f (l1 l2 : list Event) : count f (l1 ++ l2) = (count f l1 + count f l2)%nat.
Proof. unfold count. rewrite filter_app, length_app. reflexivity. Qed.

Lemma published_app (l1 l2 : list Event) : published (l1 ++ l2) = published l1 ++ published l2.
Proof.
  induction l1 as [|[sp|c] l1 IH]; simpl; [reflexivity | rewrite IH; reflexivity | exact IH].
Qed.

(** ** One cycle *)

Section CycleProperties.

Context {manual_control_input_s manual_control_switches_s : Type}.
Context {Sel : Type} `{Selector : ManualControlSelector manual_control_input_s Sel}.
Context `{K : Constants}.

Local Abbreviation MC := (@ManualControl Sel).
Local Abbreviation IO := (@CycleInput manual_control_input_s manual_control_switches_s).

Lemma if_same2 (A : Type) (b c : bool) (s : A) :
  (if b then (if c then s else s) else s) = s.
Proof. destruct b, c; reflexivity. Qed.

Ltac sp_fields :=
  cbn [Sp.arm_gesture Sp.disarm_gesture Sp.user_override Sp.timestamp Sp.x Sp.y Sp.z Sp.r
       Sp.valid Sp.data_source
       Sp.set_arm_gesture Sp.set_disarm_gesture Sp.set_user_override Sp.set_timestamp].

(** The valid branch in one piece: the new members, and what is sent. *)
Lemma run_valid_unfolded (io : IO) (mc : MC) (sel : Sel) :
  let sp := setpoint sel in
  let a := Hysteresis.get_state (arm_timer_after mc sp) in
  let d := Hysteresis.get_state (disarm_timer_after mc sp) in
  exists sel' last,
    setpoint sel' = annotated (hrt_now io) mc sp /\
    run_valid io mc sel =
      (mk_mc sel' (arm_timer_after mc sp) (disarm_timer_after mc sp) a d
             (Sp.x sp) (Sp.y sp) (Sp.z sp) (Sp.r sp) false last
             (_param_rc_arm_hyst mc) (_param_com_rc_in_mode mc)
             (_param_com_rc_loss_t mc) (_param_com_rc_stick_ov mc),
       (if a && negb (_previous_arm_gesture mc)
        then [send_arm_command (hrt_arm_command io)] else [])
       ++ (if d && negb (_previous_disarm_gesture mc)
           then [send_disarm_command (hrt_disarm_command io)] else [])
       ++ [Publish (annotated (hrt_now io) mc sp)]).
Proof.
  intros sp a d. unfold run_valid. cbv zeta.
  rewrite if_same2.
  fold sp. fold (arm_timer_after mc sp). fold (disarm_timer_after mc sp). fold a. fold d.
  rewrite !setpoint_read_write. sp_fields.
  unfold annotated, rpy_moved, throttle_moved. fold a. fold d. sp_fields.
  clearbody a d.
  destruct a, d, (_previous_arm_gesture mc), (_previous_disarm_gesture mc);
    cbn [andb negb]; eexists _, _; (split; [apply setpoint_read_write|]);
    sp_fields; reflexivity.
Qed.

(** *** The three ways a cycle goes *)

Lemma Run_exit (mc : MC) (io : IO) : should_exit io = true -> Run mc io = (mc, []).
Proof. intros E. unfold Run. rewrite E. reflexivity. Qed.

Lemma Run_valid (mc : MC) (io : IO) :
  cycle_valid mc io = true ->
  Run mc io =
    run_valid io (check_parameters (parameter_update io) mc)
              (ingest io (_selector (check_parameters (parameter_update io) mc))).
Proof.
  unfold cycle_valid, selected, Run. intros V.
  apply andb_true_iff in V as [E V]. apply negb_true_iff in E.
  rewrite E, V. reflexivity.
Qed.

Lemma Run_invalid (mc : MC) (io : IO) :
  cycle_invalid mc io = true ->
  Run mc io =
    run_invalid (check_parameters (parameter_update io) mc)
                (ingest io (_selector (check_parameters (parameter_update io) mc))).
Proof.
  unfold cycle_invalid, selected, Run. intros V.
  apply andb_true_iff in V as [E V]. apply negb_true_iff in E, V.
  rewrite E, V. reflexivity.
Qed.

Lemma cycle_cases (mc : MC) (io : IO) :
  should_exit io = true \/ cycle_valid mc io = true \/ cycle_invalid mc io = true.
Proof.
  unfold cycle_valid, cycle_invalid.
  destruct (should_exit io); [left; reflexivity | right].
  destruct (Sp.valid (selected mc io)); [left | right]; reflexivity.
Qed.

Lemma valid_not_invalid (mc : MC) (io : IO) :
  cycle_valid mc io = true -> cycle_invalid mc io = false.
Proof.
  unfold cycle_valid, cycle_invalid.
  destruct (should_exit io), (Sp.valid (selected mc io)); simpl; congruence.
Qed.

(** *** Reloading the parameters leaves the rest alone *)

Lemma check_parameters_confirmed_arm u (mc : MC) :
  confirmed_arm (check_parameters u mc) = confirmed_arm mc.
Proof. destruct u; reflexivity. Qed.

Lemma check_parameters_confirmed_disarm u (mc : MC) :
  confirmed_disarm (check_parameters u mc) = confirmed_disarm mc.
Proof. destruct u; reflexivity. Qed.

Lemma check_parameters_previous_arm u (mc : MC) :
  _previous_arm_gesture (check_parameters u mc) = _previous_arm_gesture mc.
Proof. destruct u; reflexivity. Qed.

Lemma check_parameters_previous_disarm u (mc : MC) :
  _previous_disarm_gesture (check_parameters u mc) = _previous_disarm_gesture mc.
Proof. destruct u; reflexivity. Qed.

Lemma check_parameters_latch u (mc : MC) :
  _published_invalid_once (check_parameters u mc) = _published_invalid_once mc.
Proof. destruct u; reflexivity. Qed.

(** *** Counting commands *)

Lemma count_arm_of_arm (c : bool) (t0 : Z) :
  count is_arm_command (if c then [send_arm_command t0] else []) = if c then 1%nat else 0%nat.
Proof. destruct c; reflexivity. Qed.

Lemma count_arm_of_disarm (c : bool) (t0 : Z) :
  count is_arm_command (if c then [send_disarm_command t0] else []) = 0%nat.
Proof. destruct c; reflexivity. Qed.

Lemma count_disarm_of_disarm (c : bool) (t0 : Z) :
  count is_disarm_command (if c then [send_disarm_command t0] else [])
  = if c then 1%nat else 0%nat.
Proof. destruct c; reflexivity. Qed.

Lemma count_disarm_of_arm (c : bool) (t0 : Z) :
  count is_disarm_command (if c then [send_arm_command t0] else []) = 0%nat.
Proof. destruct c; reflexivity. Qed.

Lemma count_publish_of_command (c : bool) (e : vehicle_command_s) :
  count is_publish (if c then [Command e] else []) = 0%nat.
Proof. destruct c; reflexivity. Qed.

(** The commands of one cycle are the rising edges of the confirmed states
    over that cycle, and the edge memory is right again after it. *)
Lemma Run_edges (mc : MC) (io : IO) :
  edge_memory_ok mc ->
  count is_arm_command (snd (Run mc io))
  = (if negb (confirmed_arm mc) && confirmed_arm (fst (Run mc io)) then 1 else 0)%nat
  /\ count is_disarm_command (snd (Run mc io))
     = (if negb (confirmed_disarm mc) && confirmed_disarm (fst (Run mc io))
        then 1 else 0)%nat
  /\ edge_memory_ok (fst (Run mc io)).
Proof.
  intros [Ea Ed].
  destruct (cycle_cases mc io) as [X | [V | I]].
  - rewrite (Run_exit _ _ X). cbn [fst snd].
    repeat split; try assumption;
      [destruct (confirmed_arm mc) | destruct (confirmed_disarm mc)]; reflexivity.
  - rewrite (Run_valid _ _ V).
    destruct (run_valid_unfolded io (check_parameters (parameter_update io) mc)
                (ingest io (_selector (check_parameters (parameter_update io) mc))))
      as (sel' & last & _ & ->).
    cbn [fst snd]. unfold confirmed_arm at 2, confirmed_disarm at 2, edge_memory_ok.
    cbn [_stick_arm_hysteresis _stick_disarm_hysteresis
         _previous_arm_gesture _previous_disarm_gesture].
    rewrite !count_app, count_arm_of_arm, count_arm_of_disarm,
      count_disarm_of_arm, count_disarm_of_disarm.
    rewrite check_parameters_previous_arm, check_parameters_previous_disarm, Ea, Ed.
    unfold confirmed_arm, confirmed_disarm.
    repeat split;
      [ destruct (Hysteresis.get_state (arm_timer_after _ _)),
          (Hysteresis.get_state (_stick_arm_hysteresis mc)); reflexivity
      | destruct (Hysteresis.get_state (disarm_timer_after _ _)),
          (Hysteresis.get_state (_stick_disarm_hysteresis mc)); reflexivity ].
  - rewrite (Run_invalid _ _ I). unfold run_invalid. cbn [fst snd].
    unfold edge_memory_ok, confirmed_arm, confirmed_disarm.
    cbn [_stick_arm_hysteresis _stick_disarm_hysteresis
         _previous_arm_gesture _previous_disarm_gesture].
    fold (confirmed_arm (check_parameters (parameter_update io) mc)).
    fold (confirmed_disarm (check_parameters (parameter_update io) mc)).
    rewrite check_parameters_confirmed_arm, check_parameters_confirmed_disarm,
      check_parameters_previous_arm, check_parameters_previous_disarm.
    fold (confirmed_arm mc). fold (confirmed_disarm mc).
    repeat split; try assumption;
      destruct (negb (_published_invalid_once _)), (confirmed_arm mc),
        (confirmed_disarm mc); reflexivity.
Qed.

(** *** What a cycle publishes *)

Lemma published_commands (c1 c2 : bool) (e1 e2 : Event) (sp : Sp.manual_control_setpoint_s) :
  is_publish e1 = false -> is_publish e2 = false ->
  published ((if c1 then [e1] else []) ++ (if c2 then [e2] else []) ++ [Publish sp]) = [sp].
Proof.
  destruct e1, e2; cbn [is_publish]; try discriminate. intros _ _.
  destruct c1, c2; reflexivity.
Qed.

(** A valid cycle, in one piece. *)
Lemma Run_valid_eq (mc : MC) (io : IO) :
  cycle_valid mc io = true ->
  let mc1 := check_parameters (parameter_update io) mc in
  let sp := selected mc io in
  exists sel' last,
    setpoint sel' = annotated (hrt_now io) mc1 sp /\
    published (snd (Run mc io)) = [annotated (hrt_now io) mc1 sp] /\
    fst (Run mc io) =
      mk_mc sel' (arm_timer_after mc1 sp) (disarm_timer_after mc1 sp)
            (Hysteresis.get_state (arm_timer_after mc1 sp))
            (Hysteresis.get_state (disarm_timer_after mc1 sp))
            (Sp.x sp) (Sp.y sp) (Sp.z sp) (Sp.r sp) false last
            (_param_rc_arm_hyst mc1) (_param_com_rc_in_mode mc1)
            (_param_com_rc_loss_t mc1) (_param_com_rc_stick_ov mc1).
Proof.
  intros V. cbv zeta. unfold selected. rewrite (Run_valid _ _ V).
  destruct (run_valid_unfolded io (check_parameters (parameter_update io) mc)
              (ingest io (_selector (check_parameters (parameter_update io) mc))))
    as (sel' & last & Hs & ->).
  exists sel', last. cbn [fst snd]. repeat split; [exact Hs|].
  apply published_commands; reflexivity.
Qed.

(** An invalid cycle, in one piece. *)
Lemma Run_invalid_eq (mc : MC) (io : IO) :
  cycle_invalid mc io = true ->
  let mc1 := check_parameters (parameter_update io) mc in
  published (snd (Run mc io))
  = (if _published_invalid_once mc then [] else [selected mc io]) /\
  fst (Run mc io) =
    mk_mc (ingest io (_selector mc1)) (_stick_arm_hysteresis mc1)
          (_stick_disarm_hysteresis mc1)
          (_previous_arm_gesture mc) (_previous_disarm_gesture mc)
          F32.NAN F32.NAN F32.NAN F32.NAN true (-1)
          (_param_rc_arm_hyst mc1) (_param_com_rc_in_mode mc1)
          (_param_com_rc_loss_t mc1) (_param_com_rc_stick_ov mc1).
Proof.
  intros I. cbv zeta. rewrite (Run_invalid _ _ I). unfold run_invalid, selected.
  cbn [fst snd].
  rewrite check_parameters_latch, check_parameters_previous_arm,
    check_parameters_previous_disarm.
  split; [|reflexivity].
  destruct (_published_invalid_once mc); reflexivity.
Qed.

(** *** The two gestures exclude each other *)

Lemma candidates_exclusive (sp : Sp.manual_control_setpoint_s) :
  stick_lower_right sp && right_stick_centered sp = true ->
  stick_lower_left sp && right_stick_centered sp = true -> False.
Proof.
  unfold stick_lower_right, stick_lower_left. intros R L.
  apply andb_true_iff in R as [R _]. apply andb_true_iff in R as [_ R].
  apply andb_true_iff in L as [L _]. apply andb_true_iff in L as [_ L].
  rewrite (right_not_left _ R) in L. discriminate.
Qed.

Lemma check_parameters_exclusive u (mc : MC) :
  timers_exclusive (_stick_arm_hysteresis mc) (_stick_disarm_hysteresis mc) ->
  timers_exclusive (_stick_arm_hysteresis (check_parameters u mc))
                   (_stick_disarm_hysteresis (check_parameters u mc)).
Proof.
  destruct u as [p|]; [|exact (fun H => H)].
  unfold timers_exclusive. cbn [check_parameters reload _stick_arm_hysteresis
    _stick_disarm_hysteresis Hysteresis.set_hysteresis_time_from].
  timer_fields. intros (A & B & _ & _ & R).
  repeat split; try assumption; try apply wrap64_nonneg; apply R; assumption.
Qed.

Lemma Run_exclusive (mc : MC) (io : IO) :
  timers_exclusive (_stick_arm_hysteresis mc) (_stick_disarm_hysteresis mc) ->
  timers_exclusive (_stick_arm_hysteresis (fst (Run mc io)))
                   (_stick_disarm_hysteresis (fst (Run mc io))).
Proof.
  intros T. destruct (cycle_cases mc io) as [X | [V | I]].
  - rewrite (Run_exit _ _ X). exact T.
  - destruct (Run_valid_eq _ _ V) as (sel' & last & _ & _ & ->).
    cbn [_stick_arm_hysteresis _stick_disarm_hysteresis].
    apply timers_exclusive_step;
      [apply check_parameters_exclusive, T | apply candidates_exclusive].
  - destruct (Run_invalid_eq _ _ I) as [_ ->].
    cbn [_stick_arm_hysteresis _stick_disarm_hysteresis].
    apply check_parameters_exclusive, T.
Qed.

(** Under the relation of the two timers, a cycle leaves the confirmed
    states apart and every valid setpoint it publishes carries them. *)
Lemma Run_flags_apart (mc : MC) (io : IO) :
  timers_exclusive (_stick_arm_hysteresis mc) (_stick_disarm_hysteresis mc) ->
  confirmed_arm (fst (Run mc io)) && confirmed_disarm (fst (Run mc io)) = false
  /\ Forall (fun sp => Sp.valid sp = true ->
                       Sp.arm_gesture sp = confirmed_arm (fst (Run mc io))
                       /\ Sp.disarm_gesture sp = confirmed_disarm (fst (Run mc io))
                       /\ Sp.arm_gesture sp && Sp.disarm_gesture sp = false)
            (published (snd (Run mc io))).
Proof.
  intros T. pose proof (Run_exclusive mc io T) as (_ & _ & _ & _ & X & _).
  assert (N : confirmed_arm (fst (Run mc io)) && confirmed_disarm (fst (Run mc io)) = false).
  { unfold confirmed_arm, confirmed_disarm, Hysteresis.get_state.
    destruct (Hysteresis.confirmed (_stick_arm_hysteresis _)),
      (Hysteresis.confirmed (_stick_disarm_hysteresis _)); try reflexivity.
    exfalso. apply X; reflexivity. }
  split; [exact N|].
  destruct (cycle_cases mc io) as [E | [V | I]].
  - rewrite (Run_exit _ _ E). constructor.
  - revert N. destruct (Run_valid_eq _ _ V) as (sel' & last & _ & -> & ->).
    unfold confirmed_arm, confirmed_disarm.
    cbn [_stick_arm_hysteresis _stick_disarm_hysteresis]. intros N.
    constructor; [|constructor]. intros _. unfold annotated. sp_fields.
    repeat split. exact N.
  - destruct (Run_invalid_eq _ _ I) as [-> _].
    destruct (_published_invalid_once mc); constructor; [|constructor].
    intros V. exfalso. unfold cycle_invalid in I.
    apply andb_true_iff in I as [_ I]. rewrite V in I. discriminate.
Qed.

(** ** Traces *)

(** C1. Arm and disarm commands are edge-triggered.  Started with the edge
    memory in agreement with the confirmed gesture states, in every run of
    cycles the number of arm commands sent by a cycle is 1 when the
    confirmed arm state went from false to true over that cycle and 0
    otherwise: one command at each confirmation, none while the state stays
    true, one more at the next confirmation after a release.  The same
    holds for the disarm command and the confirmed disarm state. *)
Theorem commands_are_rising_edges (mc : MC) (ios : list IO) :
  edge_memory_ok mc ->
  map (fun c => count is_arm_command (snd c)) (run_cycles mc ios)
  = rising_edges (confirmed_arm mc) (map (fun c => confirmed_arm (fst c)) (run_cycles mc ios))
  /\ map (fun c => count is_disarm_command (snd c)) (run_cycles mc ios)
     = rising_edges (confirmed_disarm mc)
         (map (fun c => confirmed_disarm (fst c)) (run_cycles mc ios)).
Proof.
  revert mc. induction ios as [|io ios IH]; intros mc E.
  - split; reflexivity.
  - destruct (Run_edges mc io E) as (Ha & Hd & E').
    destruct (IH _ E') as [IHa IHd].
    cbn [run_cycles map rising_edges]. rewrite Ha, Hd, IHa, IHd. split; reflexivity.
Qed.

(** C2. The two gestures are never confirmed together.  Started with both
    gestures unconfirmed and with timers that hold nothing when leaving
    true (the cycle never sets that duration) and a duration that is not
    negative when leaving false, in every run of cycles and after every
    cycle the confirmed arm state and the confirmed disarm state are not
    both true, and every valid setpoint published carries these two states
    in [arm_gesture] and [disarm_gesture], which are therefore not both
    true. *)
Theorem gestures_never_both (mc : MC) (ios : list IO) :
  Hysteresis.hold_from_true (_stick_arm_hysteresis mc) = 0 ->
  Hysteresis.hold_from_true (_stick_disarm_hysteresis mc) = 0 ->
  0 <= Hysteresis.hold_from_false (_stick_arm_hysteresis mc) ->
  0 <= Hysteresis.hold_from_false (_stick_disarm_hysteresis mc) ->
  confirmed_arm mc = false ->
  confirmed_disarm mc = false ->
  Forall (fun c =>
            confirmed_arm (fst c) && confirmed_disarm (fst c) = false
            /\ Forall (fun sp => Sp.valid sp = true ->
                                Sp.arm_gesture sp = confirmed_arm (fst c)
                                /\ Sp.disarm_gesture sp = confirmed_disarm (fst c)
                                /\ Sp.arm_gesture sp && Sp.disarm_gesture sp = false)
                      (published (snd c)))
         (run_cycles mc ios).
Proof.
  intros Ta Td Fa Fd Ca Cd.
  assert (T : timers_exclusive (_stick_arm_hysteresis mc) (_stick_disarm_hysteresis mc)).
  { unfold confirmed_arm, confirmed_disarm, Hysteresis.get_state in Ca, Cd.
    unfold timers_exclusive. rewrite Ca, Cd.
    repeat split; try assumption; discriminate. }
  clear Ta Td Fa Fd Ca Cd. revert mc T.
  induction ios as [|io ios IH]; intros mc T; cbn [run_cycles]; constructor.
  - apply Run_flags_apart, T.
  - apply IH, Run_exclusive, T.
Qed.

(** *** The latch of the invalid setpoint *)

Lemma Run_invalid_latch (mc : MC) (io : IO) :
  cycle_invalid mc io = true -> _published_invalid_once (fst (Run mc io)) = true.
Proof. intros I. destruct (Run_invalid_eq _ _ I) as [_ ->]. reflexivity. Qed.

(** Once the latch is set, a run of invalid cycles publishes nothing. *)
Lemma invalid_run_silent (ios : list IO) (mc : MC) :
  _published_invalid_once mc = true ->
  all_invalid mc ios = true ->
  map (fun c => published (snd c)) (run_cycles mc ios) = repeat [] (length ios).
Proof.
  revert mc. induction ios as [|io ios IH]; intros mc L A; [reflexivity|].
  cbn [all_invalid] in A. apply andb_true_iff in A as [I A].
  cbn [run_cycles map length repeat]. f_equal.
  - destruct (Run_invalid_eq _ _ I) as [-> _]. rewrite L. reflexivity.
  - apply IH; [apply Run_invalid_latch, I | exact A].
Qed.

(** C3. The invalid setpoint is published once per episode.  Every valid
    cycle clears the latch; and in a run of consecutive invalid cycles that
    starts with the latch clear (as after a valid cycle), the first cycle
    publishes the selector's setpoint, once, and no later cycle of the run
    publishes anything. *)
Theorem invalid_published_once (mc : MC) (io : IO) (ios : list IO) :
  (cycle_valid mc io = true -> _published_invalid_once (fst (Run mc io)) = false)
  /\ (_published_invalid_once mc = false ->
      all_invalid mc (io :: ios) = true ->
      map (fun c => published (snd c)) (run_cycles mc (io :: ios))
      = [selected mc io] :: repeat [] (length ios)).
Proof.
  split.
  - intros V. destruct (Run_valid_eq _ _ V) as (sel' & last & _ & _ & ->). reflexivity.
  - intros L A. cbn [all_invalid] in A. apply andb_true_iff in A as [I A].
    cbn [run_cycles map]. f_equal.
    + destruct (Run_invalid_eq _ _ I) as [-> _]. rewrite L. reflexivity.
    + apply invalid_run_silent; [apply Run_invalid_latch, I | exact A].
Qed.

(** *** The gesture step *)

Lemma arm_candidate_eq (sp : Sp.manual_control_setpoint_s) :
  stick_lower_right sp && right_stick_centered sp = arm_candidate sp.
Proof.
  unfold stick_lower_right, right_stick_centered, arm_candidate.
  rewrite andb_assoc. reflexivity.
Qed.

Lemma disarm_candidate_eq (sp : Sp.manual_control_setpoint_s) :
  stick_lower_left sp && right_stick_centered sp = disarm_candidate sp.
Proof.
  unfold stick_lower_left, right_stick_centered, disarm_candidate.
  rewrite andb_assoc. reflexivity.
Qed.

(** C4. On a valid cycle the arm timer is fed the candidate z < 0.1 and
    r > 0.9 and |x| < 0.1 and |y| < 0.1, the disarm timer the candidate
    z < 0.1 and r < -0.9 and |x| < 0.1 and |y| < 0.1, both at the time stamp
    the selector left in the setpoint; the clock value of the cycle is what
    the published setpoint is stamped with, and that setpoint carries the
    two confirmed states. *)
Theorem gesture_timers_fed (mc : MC) (io : IO) :
  cycle_valid mc io = true ->
  let mc1 := check_parameters (parameter_update io) mc in
  let sp := selected mc io in
  _stick_arm_hysteresis (fst (Run mc io))
  = Hysteresis.set_state_and_update (arm_candidate sp) (Sp.timestamp sp)
      (_stick_arm_hysteresis mc1)
  /\ _stick_disarm_hysteresis (fst (Run mc io))
     = Hysteresis.set_state_and_update (disarm_candidate sp) (Sp.timestamp sp)
         (_stick_disarm_hysteresis mc1)
  /\ map Sp.timestamp (published (snd (Run mc io))) = [hrt_now io]
  /\ map Sp.arm_gesture (published (snd (Run mc io))) = [confirmed_arm (fst (Run mc io))]
  /\ map Sp.disarm_gesture (published (snd (Run mc io)))
     = [confirmed_disarm (fst (Run mc io))].
Proof.
  intros V. cbv zeta.
  destruct (Run_valid_eq _ _ V) as (sel' & last & _ & -> & ->).
  unfold confirmed_arm, confirmed_disarm.
  cbn [_stick_arm_hysteresis _stick_disarm_hysteresis map].
  repeat split; try reflexivity.
  - unfold arm_timer_after. rewrite arm_candidate_eq. reflexivity.
  - unfold disarm_timer_after. rewrite disarm_candidate_eq. reflexivity.
Qed.

(** *** The override step *)

Lemma check_parameters_previous_axes u (mc : MC) :
  _previous_x (check_parameters u mc) = _previous_x mc
  /\ _previous_y (check_parameters u mc) = _previous_y mc
  /\ _previous_z (check_parameters u mc) = _previous_z mc
  /\ _previous_r (check_parameters u mc) = _previous_r mc.
Proof. destruct u; repeat split. Qed.

(** C5. On a valid cycle [user_override] is true exactly when one of
    |x - previous_x|, |y - previous_y|, |r - previous_r| is above
    [minimum_stick_change], which is 0.01 times the override parameter, or
    |z - previous_z| times 2 is above it; when all four are at or below it,
    the flag is false.  The published setpoint carries the flag, and it is
    the setpoint the selector holds after the cycle. *)
Theorem user_override_formula (mc : MC) (io : IO) :
  cycle_valid mc io = true ->
  let sp := selected mc io in
  let m := F32.mul F32.c0_01
             (_param_com_rc_stick_ov (check_parameters (parameter_update io) mc)) in
  let dx := F32.fabsf (F32.sub (Sp.x sp) (_previous_x mc)) in
  let dy := F32.fabsf (F32.sub (Sp.y sp) (_previous_y mc)) in
  let dr := F32.fabsf (F32.sub (Sp.r sp) (_previous_r mc)) in
  let dz2 := F32.mul (F32.fabsf (F32.sub (Sp.z sp) (_previous_z mc))) F32.c2_0 in
  exists out,
    published (snd (Run mc io)) = [out]
    /\ setpoint (_selector (fst (Run mc io))) = out
    /\ (Sp.user_override out = true <->
        F32.gt dx m = true \/ F32.gt dy m = true \/ F32.gt dr m = true
        \/ F32.gt dz2 m = true)
    /\ (F32.le dx m = true -> F32.le dy m = true -> F32.le dr m = true ->
        F32.le dz2 m = true -> Sp.user_override out = false).
Proof.
  intros V. cbv zeta.
  destruct (Run_valid_eq _ _ V) as (sel' & last & Hs & -> & ->).
  eexists. split; [reflexivity|]. split; [exact Hs|].
  unfold annotated, rpy_moved, throttle_moved, minimum_stick_change. sp_fields.
  destruct (check_parameters_previous_axes (parameter_update io) mc)
    as (-> & -> & -> & ->).
  split.
  - rewrite !orb_true_iff. tauto.
  - intros Hx Hy Hr Hz.
    rewrite (le_not_gt _ _ Hx), (le_not_gt _ _ Hy), (le_not_gt _ _ Hr), (le_not_gt _ _ Hz).
    reflexivity.
Qed.

(** C6. An invalid cycle sets the four previous axis values to NaN, and
    the valid cycle that comes next publishes [user_override] false,
    whatever the axis values of its setpoint. *)
Theorem previous_axes_reset (mc : MC) (io io' : IO) :
  cycle_invalid mc io = true ->
  (_previous_x (fst (Run mc io)) = F32.NAN
   /\ _previous_y (fst (Run mc io)) = F32.NAN
   /\ _previous_z (fst (Run mc io)) = F32.NAN
   /\ _previous_r (fst (Run mc io)) = F32.NAN)
  /\ (cycle_valid (fst (Run mc io)) io' = true ->
      map Sp.user_override (published (snd (Run (fst (Run mc io)) io'))) = [false]).
Proof.
  intros I.
  assert (N : _previous_x (fst (Run mc io)) = F32.NAN
              /\ _previous_y (fst (Run mc io)) = F32.NAN
              /\ _previous_z (fst (Run mc io)) = F32.NAN
              /\ _previous_r (fst (Run mc io)) = F32.NAN).
  { destruct (Run_invalid_eq _ _ I) as [_ ->]. repeat split. }
  split; [exact N|]. intros V.
  destruct (Run_valid_eq _ _ V) as (sel' & last & _ & -> & _).
  cbn [map]. unfold annotated, rpy_moved, throttle_moved. sp_fields.
  destruct (check_parameters_previous_axes (parameter_update io') (fst (Run mc io)))
    as (-> & -> & -> & ->).
  destruct N as (-> & -> & -> & ->).
  rewrite !sub_nan_r. change (F32.fabsf F32.NAN) with F32.NAN.
  rewrite mul_nan_l, !gt_nan_false. reflexivity.
Qed.

(** *** Reloading *)

Lemma Run_reload (mc : MC) (io : IO) (p : Params) :
  should_exit io = false -> parameter_update io = Some p ->
  Run mc io = Run (reload p mc) (without_update io).
Proof.
  intros E U. unfold Run. destruct io as [ex upd now ta td subs sw].
  cbn [should_exit parameter_update without_update] in *. subst ex upd.
  cbn [check_parameters]. reflexivity.
Qed.

Lemma check_parameters_not_fed u (mc : MC) :
  not_fed (_stick_arm_hysteresis mc) (_stick_arm_hysteresis (check_parameters u mc))
  /\ not_fed (_stick_disarm_hysteresis mc)
       (_stick_disarm_hysteresis (check_parameters u mc)).
Proof. destruct u; repeat split. Qed.

(** C8. On a cycle with a pending parameter update the derived constants
    are set again before any input is looked at: the cycle is the cycle
    without update run on the reloaded work item, whose selector has first
    the input mode and then the timeout (the parameter in seconds times
    1000000) set; the inputs of the cycle are fed to that selector; both
    timers leave the cycle with the hold from false at the hysteresis
    parameter times 1000 microseconds; and reloading keeps the confirmed
    and candidate gesture states, the edge memory, the previous axis values
    and the latch. *)
Theorem parameters_reloaded_first (mc : MC) (io : IO) (p : Params) :
  should_exit io = false ->
  parameter_update io = Some p ->
  let sel0 := set_timeout (F32.mul (COM_RC_LOSS_T p) (F32.of_Z s_1))
                (set_rc_in_mode (COM_RC_IN_MODE p) (_selector mc)) in
  Run mc io = Run (reload p mc) (without_update io)
  /\ _selector (reload p mc) = sel0
  /\ selected mc io = setpoint (ingest io sel0)
  /\ Hysteresis.hold_from_false (_stick_arm_hysteresis (fst (Run mc io)))
     = wrap64 (RC_ARM_HYST p * ms_1)
  /\ Hysteresis.hold_from_false (_stick_disarm_hysteresis (fst (Run mc io)))
     = wrap64 (RC_ARM_HYST p * ms_1)
  /\ not_fed (_stick_arm_hysteresis mc) (_stick_arm_hysteresis (reload p mc))
  /\ not_fed (_stick_disarm_hysteresis mc) (_stick_disarm_hysteresis (reload p mc))
  /\ _previous_arm_gesture (reload p mc) = _previous_arm_gesture mc
  /\ _previous_disarm_gesture (reload p mc) = _previous_disarm_gesture mc
  /\ _previous_x (reload p mc) = _previous_x mc
  /\ _previous_y (reload p mc) = _previous_y mc
  /\ _previous_z (reload p mc) = _previous_z mc
  /\ _previous_r (reload p mc) = _previous_r mc
  /\ _published_invalid_once (reload p mc) = _published_invalid_once mc.
Proof.
  intros E U. cbv zeta.
  split; [apply Run_reload; assumption|].
  split; [reflexivity|].
  split; [unfold selected; rewrite U; reflexivity|].
  assert (H : Hysteresis.hold_from_false (_stick_arm_hysteresis (fst (Run mc io)))
              = wrap64 (RC_ARM_HYST p * ms_1)
              /\ Hysteresis.hold_from_false (_stick_disarm_hysteresis (fst (Run mc io)))
                 = wrap64 (RC_ARM_HYST p * ms_1)).
  { destruct (cycle_cases mc io) as [X | [V | I]]; [congruence | |].
    - destruct (Run_valid_eq _ _ V) as (sel' & last & _ & _ & ->).
      cbn [_stick_arm_hysteresis _stick_disarm_hysteresis].
      unfold arm_timer_after, disarm_timer_after.
      rewrite !update_hold_from_false, U. split; reflexivity.
    - destruct (Run_invalid_eq _ _ I) as [_ ->].
      cbn [_stick_arm_hysteresis _stick_disarm_hysteresis]. rewrite U. split; reflexivity. }
  destruct H as [Ha Hd]. repeat split; assumption.
Qed.

(** *** The switches *)

Lemma Run_with_switches (mc : MC) (io : IO) sw : Run mc (with_switches sw io) = Run mc io.
Proof.
  unfold Run, with_switches. cbn [should_exit parameter_update].
  destruct (should_exit io); [reflexivity|].
  unfold ingest. cbn [hrt_now _manual_control_input_subs].
  match goal with |- (if ?c then _ else _) = _ => destruct c end; [|reflexivity].
  unfold run_valid. cbv zeta. rewrite !if_same2. reflexivity.
Qed.

(** C9. The switches have no effect: two runs of a cycle that differ only
    in what the switches subscription delivers, any content or none, end in
    the same state and send the same events, so the same setpoint and the
    same commands. *)
Theorem switches_do_not_interfere (mc : MC) (io : IO)
        (sw1 sw2 : option manual_control_switches_s) :
  Run mc (with_switches sw1 io) = Run mc (with_switches sw2 io).
Proof. rewrite !Run_with_switches. reflexivity. Qed.

(** *** Gestures across an invalid episode *)

Lemma final_cons (mc : MC) (io : IO) (ios : list IO) :
  final mc (io :: ios) = final (fst (Run mc io)) ios.
Proof. reflexivity. Qed.

Lemma Run_invalid_keeps (mc : MC) (io : IO) :
  cycle_invalid mc io = true ->
  not_fed (_stick_arm_hysteresis mc) (_stick_arm_hysteresis (fst (Run mc io)))
  /\ not_fed (_stick_disarm_hysteresis mc) (_stick_disarm_hysteresis (fst (Run mc io)))
  /\ _previous_arm_gesture (fst (Run mc io)) = _previous_arm_gesture mc
  /\ _previous_disarm_gesture (fst (Run mc io)) = _previous_disarm_gesture mc.
Proof.
  intros I. destruct (Run_invalid_eq _ _ I) as [_ ->].
  cbn [_stick_arm_hysteresis _stick_disarm_hysteresis
       _previous_arm_gesture _previous_disarm_gesture].
  destruct (check_parameters_not_fed (parameter_update io) mc) as [A D].
  repeat split; try apply A; apply D.
Qed.

Lemma invalid_run_keeps (ios : list IO) (mc : MC) :
  all_invalid mc ios = true ->
  confirmed_arm (final mc ios) = confirmed_arm mc
  /\ confirmed_disarm (final mc ios) = confirmed_disarm mc
  /\ _previous_arm_gesture (final mc ios) = _previous_arm_gesture mc
  /\ _previous_disarm_gesture (final mc ios) = _previous_disarm_gesture mc.
Proof.
  revert mc. induction ios as [|io ios IH]; intros mc A; [repeat split|].
  cbn [all_invalid] in A. apply andb_true_iff in A as [I A].
  rewrite final_cons. destruct (IH _ A) as (-> & -> & -> & ->).
  destruct (Run_invalid_keeps _ _ I) as ((Ca & _) & (Cd & _) & Pa & Pd).
  unfold confirmed_arm, confirmed_disarm, Hysteresis.get_state.
  repeat split; assumption.
Qed.

(** C10. The gesture state persists across an invalid episode.  An invalid
    cycle feeds neither timer (confirmed state, candidate, time of the last
    flip and hold from true are kept, and without a parameter update the
    timers are kept whole) and keeps the edge memory.  So, when a valid
    cycle is followed by a run of invalid cycles and then by a valid cycle:
    if the arm gesture was confirmed after the first valid cycle, the valid
    cycle at re-entry sends no arm command; the same holds for disarm. *)
Theorem gestures_persist_over_invalid (mc : MC) (io1 : IO) (ios : list IO) (io2 : IO) :
  (cycle_invalid mc io1 = true ->
   not_fed (_stick_arm_hysteresis mc) (_stick_arm_hysteresis (fst (Run mc io1)))
   /\ not_fed (_stick_disarm_hysteresis mc) (_stick_disarm_hysteresis (fst (Run mc io1)))
   /\ (parameter_update io1 = None ->
       _stick_arm_hysteresis (fst (Run mc io1)) = _stick_arm_hysteresis mc
       /\ _stick_disarm_hysteresis (fst (Run mc io1)) = _stick_disarm_hysteresis mc)
   /\ _previous_arm_gesture (fst (Run mc io1)) = _previous_arm_gesture mc
   /\ _previous_disarm_gesture (fst (Run mc io1)) = _previous_disarm_gesture mc)
  /\ (cycle_valid mc io1 = true ->
      all_invalid (fst (Run mc io1)) ios = true ->
      cycle_valid (final (fst (Run mc io1)) ios) io2 = true ->
      (confirmed_arm (fst (Run mc io1)) = true ->
       count is_arm_command (snd (Run (final (fst (Run mc io1)) ios) io2)) = 0%nat)
      /\ (confirmed_disarm (fst (Run mc io1)) = true ->
          count is_disarm_command (snd (Run (final (fst (Run mc io1)) ios) io2)) = 0%nat)).
Proof.
  split.
  - intros I. destruct (Run_invalid_keeps _ _ I) as (A & D & Pa & Pd).
    split; [exact A|]. split; [exact D|]. split; [|split; assumption].
    intros U. destruct (Run_invalid_eq _ _ I) as [_ ->]. rewrite U. split; reflexivity.
  - intros V A V2.
    assert (E1 : edge_memory_ok (fst (Run mc io1))).
    { destruct (Run_valid_eq _ _ V) as (sel' & last & _ & _ & ->). split; reflexivity. }
    destruct (invalid_run_keeps _ _ A) as (Ca & Cd & Pa & Pd).
    assert (E2 : edge_memory_ok (final (fst (Run mc io1)) ios)).
    { destruct E1 as [Ea Ed]. split; congruence. }
    destruct (Run_edges _ io2 E2) as (Na & Nd & _).
    rewrite Na, Nd, Ca, Cd.
    split; intros ->; reflexivity.
Qed.

(** *** What a reload sets in the timers *)

(** C7. The holds of the two directions are set independently of each
    other.  A cycle with a pending parameter update sets, in each gesture
    timer, the hold for leaving false (the time to confirm that the gesture
    became true) to the hysteresis parameter times 1000 microseconds, and
    this leaves the hold for leaving true (the time to confirm that it
    became false) as it was: the two durations of a timer may differ. *)
Theorem reload_sets_hold_from_false (mc : MC) (io : IO) (p : Params) :
  should_exit io = false ->
  parameter_update io = Some p ->
  Hysteresis.hold_from_false (_stick_arm_hysteresis (fst (Run mc io)))
  = wrap64 (RC_ARM_HYST p * ms_1)
  /\ Hysteresis.hold_from_false (_stick_disarm_hysteresis (fst (Run mc io)))
     = wrap64 (RC_ARM_HYST p * ms_1)
  /\ Hysteresis.hold_from_true (_stick_arm_hysteresis (fst (Run mc io)))
     = Hysteresis.hold_from_true (_stick_arm_hysteresis mc)
  /\ Hysteresis.hold_from_true (_stick_disarm_hysteresis (fst (Run mc io)))
     = Hysteresis.hold_from_true (_stick_disarm_hysteresis mc).
Proof.
  intros E U.
  destruct (cycle_cases mc io) as [X | [V | I]]; [congruence | |].
  - destruct (Run_valid_eq _ _ V) as (sel' & last & _ & _ & ->).
    cbn [_stick_arm_hysteresis _stick_disarm_hysteresis].
    unfold arm_timer_after, disarm_timer_after.
    rewrite !update_hold_from_false, !update_hold_from_true, U. repeat split.
  - destruct (Run_invalid_eq _ _ I) as [_ ->].
    cbn [_stick_arm_hysteresis _stick_disarm_hysteresis]. rewrite U. repeat split.
Qed.

End CycleProperties.

(** * The cycle at work on the one-slot selector *)

Section OnOneSlot.

Import OneSlot.

(** The scenario of the specification: the arm command is sent at the third
    cycle, when the stick has been held for more than 300 ms, and again
    after a release. *)
Example hold_release_hold_commands :
  map (fun c => count is_arm_command (snd c)) (run_cycles fresh hold_release_hold)
  = [0; 0; 1; 0; 0; 0; 0; 0; 1]%nat.
Proof. vm_compute. reflexivity. Qed.

Example arm_then_disarm_states :
  map (fun c => (confirmed_arm (fst c), confirmed_disarm (fst c)))
      (run_cycles fresh arm_then_disarm)
  = [(false, false); (false, false); (true, false); (true, false); (false, false);
     (false, true)].
Proof. vm_compute. reflexivity. Qed.

Lemma commands_are_rising_edges_witness :
  edge_memory_ok fresh
  /\ map (fun c => count is_arm_command (snd c)) (run_cycles fresh hold_release_hold)
     = rising_edges (confirmed_arm fresh)
         (map (fun c => confirmed_arm (fst c)) (run_cycles fresh hold_release_hold)).
Proof.
  assert (E : edge_memory_ok fresh) by (split; reflexivity).
  split; [exact E|].
  exact (proj1 (commands_are_rising_edges fresh hold_release_hold E)).
Defined.

Lemma gestures_never_both_witness :
  Hysteresis.hold_from_true (_stick_arm_hysteresis fresh) = 0
  /\ Hysteresis.hold_from_true (_stick_disarm_hysteresis fresh) = 0
  /\ 0 <= Hysteresis.hold_from_false (_stick_arm_hysteresis fresh)
  /\ 0 <= Hysteresis.hold_from_false (_stick_disarm_hysteresis fresh)
  /\ confirmed_arm fresh = false
  /\ confirmed_disarm fresh = false
  /\ Forall (fun c =>
               confirmed_arm (fst c) && confirmed_disarm (fst c) = false
               /\ Forall (fun sp => Sp.valid sp = true ->
                                   Sp.arm_gesture sp = confirmed_arm (fst c)
                                   /\ Sp.disarm_gesture sp = confirmed_disarm (fst c)
                                   /\ Sp.arm_gesture sp && Sp.disarm_gesture sp = false)
                         (published (snd c)))
            (run_cycles fresh arm_then_disarm).
Proof.
  repeat (split; [first [reflexivity | simpl; lia]|]).
  apply (gestures_never_both fresh arm_then_disarm);
    first [reflexivity | simpl; lia].
Defined.

Lemma invalid_published_once_witness :
  cycle_valid fresh (arm_cycle 1000000) = true
  /\ _published_invalid_once (fst (Run fresh (arm_cycle 1000000))) = false
  /\ _published_invalid_once fresh = false
  /\ all_invalid fresh silence = true
  /\ map (fun c => published (snd c)) (run_cycles fresh silence)
     = [selected fresh (cycle None 2400000 None)] :: repeat [] 2.
Proof.
  assert (V : cycle_valid fresh (arm_cycle 1000000) = true) by reflexivity.
  assert (L : _published_invalid_once fresh = false) by reflexivity.
  assert (A : all_invalid fresh silence = true) by reflexivity.
  split; [exact V|].
  split; [exact (proj1 (invalid_published_once fresh (arm_cycle 1000000) []) V)|].
  split; [exact L|]. split; [exact A|].
  exact (proj2 (invalid_published_once fresh (cycle None 2400000 None)
                  [cycle None 2600000 None; cycle None 2800000 None]) L A).
Defined.

(** The sample of [arm_cycle] is 5 ms older than the cycle: the timers are
    fed the time of the sample, the setpoint goes out with the time of the
    cycle. *)
Lemma gesture_timers_fed_witness :
  cycle_valid fresh (arm_cycle 1000000) = true
  /\ _stick_arm_hysteresis (fst (Run fresh (arm_cycle 1000000)))
     = Hysteresis.set_state_and_update true 995000 (_stick_arm_hysteresis fresh)
  /\ map Sp.timestamp (published (snd (Run fresh (arm_cycle 1000000)))) = [1000000].
Proof.
  assert (V : cycle_valid fresh (arm_cycle 1000000) = true) by reflexivity.
  split; [exact V|].
  destruct (gesture_timers_fed fresh (arm_cycle 1000000) V) as (A & _ & T & _).
  split; [exact A | exact T].
Defined.

(** From the arm position to the middle: the yaw axis moved by more than
    the 12 percent, so the override flag is up. *)
Lemma user_override_formula_witness :
  cycle_valid armed (mid_cycle 1600000) = true
  /\ exists out,
      published (snd (Run armed (mid_cycle 1600000))) = [out]
      /\ Sp.user_override out = true.
Proof.
  assert (V : cycle_valid armed (mid_cycle 1600000) = true) by reflexivity.
  split; [exact V|].
  destruct (user_override_formula armed (mid_cycle 1600000) V) as (out & P & _ & I & _).
  exists out. split; [exact P|].
  apply I. right. right. left. vm_compute. reflexivity.
Defined.

Lemma previous_axes_reset_witness :
  cycle_invalid fresh (cycle None 2400000 None) = true
  /\ cycle_valid (fst (Run fresh (cycle None 2400000 None))) (arm_cycle 2600000) = true
  /\ _previous_x (fst (Run fresh (cycle None 2400000 None))) = F32.NAN
  /\ map Sp.user_override
         (published (snd (Run (fst (Run fresh (cycle None 2400000 None)))
                              (arm_cycle 2600000))))
     = [false].
Proof.
  assert (I : cycle_invalid fresh (cycle None 2400000 None) = true) by reflexivity.
  assert (V : cycle_valid (fst (Run fresh (cycle None 2400000 None))) (arm_cycle 2600000)
              = true) by reflexivity.
  split; [exact I|]. split; [exact V|].
  destruct (previous_axes_reset fresh (cycle None 2400000 None) (arm_cycle 2600000) I)
    as ((X & _) & O).
  split; [exact X | exact (O V)].
Defined.

(** After a reload with 300 ms of arm hysteresis the arm timer of the
    work item as constructed holds 300000 microseconds when leaving false
    and still nothing when leaving true. *)
Lemma reload_sets_hold_from_false_witness :
  should_exit reload_cycle = false
  /\ parameter_update reload_cycle = Some params
  /\ Hysteresis.hold_from_false (_stick_arm_hysteresis (fst (Run fresh reload_cycle)))
     = 300000
  /\ Hysteresis.hold_from_false (_stick_disarm_hysteresis (fst (Run fresh reload_cycle)))
     = 300000
  /\ Hysteresis.hold_from_true (_stick_arm_hysteresis (fst (Run fresh reload_cycle))) = 0
  /\ Hysteresis.hold_from_true (_stick_disarm_hysteresis (fst (Run fresh reload_cycle)))
     = 0.
Proof.
  assert (E : should_exit reload_cycle = false) by reflexivity.
  assert (U : parameter_update reload_cycle = Some params) by reflexivity.
  split; [exact E|]. split; [exact U|].
  exact (reload_sets_hold_from_false fresh reload_cycle params E U).
Defined.

Lemma parameters_reloaded_first_witness :
  should_exit reload_cycle = false
  /\ parameter_update reload_cycle = Some params
  /\ Run fresh reload_cycle = Run (reload params fresh) (without_update reload_cycle)
  /\ Hysteresis.hold_from_false (_stick_disarm_hysteresis (fst (Run fresh reload_cycle)))
     = 300000.
Proof.
  assert (E : should_exit reload_cycle = false) by reflexivity.
  assert (U : parameter_update reload_cycle = Some params) by reflexivity.
  split; [exact E|]. split; [exact U|].
  destruct (parameters_reloaded_first fresh reload_cycle params E U)
    as (R & _ & _ & _ & D & _).
  split; [exact R | exact D].
Defined.

(** The arm gesture is confirmed, the input falls silent for three cycles
    and comes back with the stick still in the arm position: no second arm
    command. *)
Lemma gestures_persist_over_invalid_witness :
  cycle_valid armed (arm_cycle 1600000) = true
  /\ all_invalid (fst (Run armed (arm_cycle 1600000))) silence = true
  /\ cycle_valid (final (fst (Run armed (arm_cycle 1600000))) silence)
       (arm_cycle 3000000) = true
  /\ confirmed_arm (fst (Run armed (arm_cycle 1600000))) = true
  /\ count is_arm_command
       (snd (Run (final (fst (Run armed (arm_cycle 1600000))) silence)
                 (arm_cycle 3000000))) = 0%nat.
Proof.
  assert (V1 : cycle_valid armed (arm_cycle 1600000) = true) by reflexivity.
  assert (A : all_invalid (fst (Run armed (arm_cycle 1600000))) silence = true)
    by reflexivity.
  assert (V2 : cycle_valid (final (fst (Run armed (arm_cycle 1600000))) silence)
                 (arm_cycle 3000000) = true) by reflexivity.
  assert (C : confirmed_arm (fst (Run armed (arm_cycle 1600000))) = true) by reflexivity.
  repeat (split; [assumption|]).
  destruct (gestures_persist_over_invalid armed (arm_cycle 1600000) silence
              (arm_cycle 3000000)) as [_ H].
  exact (proj1 (H V1 A V2) C).
Defined.

End OnOneSlot.

(** * More on the cycle *)

(** ** A difference of a float with itself *)

Lemma sub_self (v : F32.float) :
  F32.sub v v = S754_zero false \/ F32.sub v v = F32.NAN.
Proof.
  destruct v as [s|s| |s m e].
  - left. destruct s; reflexivity.
  - right. destruct s; reflexivity.
  - right. reflexivity.
  - left. unfold F32.sub, SFsub. cbv beta iota zeta. rewrite Z.sub_diag. reflexivity.
Qed.

(** An axis that did not move is not above a threshold that is not
    negative, doubled or not. *)
Lemma still_axis (v m : F32.float) :
  F32.lt m F32.c0_0 = false ->
  F32.gt (F32.fabsf (F32.sub v v)) m = false
  /\ F32.gt (F32.mul (F32.fabsf (F32.sub v v)) F32.c2_0) m = false.
Proof.
  intros M. destruct (sub_self v) as [-> | ->].
  - change (F32.fabsf (S754_zero false)) with (S754_zero false).
    change (F32.mul (S754_zero false) F32.c2_0) with (S754_zero false).
    split; exact M.
  - change (F32.fabsf F32.NAN) with F32.NAN. rewrite mul_nan_l.
    split; apply gt_nan_false.
Qed.

Lemma flat_map_agree (A B : Type) (f g : A -> list B) (l : list A) :
  (forall a, In a l -> f a = g a) -> flat_map f l = flat_map g l.
Proof.
  induction l as [|a l IH]; intros H; [reflexivity|].
  cbn [flat_map]. rewrite (H a (or_introl eq_refl)), IH; [reflexivity|].
  intros b Hb. apply H. right. exact Hb.
Qed.

Ltac sp_proj :=
  cbn [Sp.arm_gesture Sp.disarm_gesture Sp.user_override Sp.timestamp Sp.x Sp.y Sp.z Sp.r
       Sp.valid Sp.data_source].

Section MoreCycleProperties.

Context {manual_control_input_s manual_control_switches_s : Type}.
Context {Sel : Type} `{Selector : ManualControlSelector manual_control_input_s Sel}.
Context `{K : Constants}.

Local Abbreviation MC := (@ManualControl Sel).
Local Abbreviation IO := (@CycleInput manual_control_input_s manual_control_switches_s).

Lemma valid_not_invalid_conv (mc : MC) (io : IO) :
  cycle_invalid mc io = true -> cycle_valid mc io = false.
Proof.
  unfold cycle_valid, cycle_invalid.
  destruct (should_exit io), (Sp.valid (selected mc io)); cbn; congruence.
Qed.

(** ** What a cycle sends *)

Lemma Run_valid_events (mc : MC) (io : IO) :
  cycle_valid mc io = true ->
  let mc1 := check_parameters (parameter_update io) mc in
  snd (Run mc io) =
    (if confirmed_arm (fst (Run mc io)) && negb (_previous_arm_gesture mc)
     then [send_arm_command (hrt_arm_command io)] else [])
    ++ (if confirmed_disarm (fst (Run mc io)) && negb (_previous_disarm_gesture mc)
        then [send_disarm_command (hrt_disarm_command io)] else [])
    ++ [Publish (annotated (hrt_now io) mc1 (selected mc io))].
Proof.
  intros V. cbv zeta. unfold selected. rewrite (Run_valid _ _ V).
  destruct (run_valid_unfolded io (check_parameters (parameter_update io) mc)
              (ingest io (_selector (check_parameters (parameter_update io) mc))))
    as (sel' & last & _ & ->).
  cbn [fst snd]. unfold confirmed_arm, confirmed_disarm.
  cbn [_stick_arm_hysteresis _stick_disarm_hysteresis].
  rewrite check_parameters_previous_arm, check_parameters_previous_disarm. reflexivity.
Qed.

Lemma Run_invalid_events (mc : MC) (io : IO) :
  cycle_invalid mc io = true ->
  snd (Run mc io) = if _published_invalid_once mc then [] else [Publish (selected mc io)].
Proof.
  intros I. rewrite (Run_invalid _ _ I). unfold run_invalid, selected. cbn [snd].
  rewrite check_parameters_latch. destruct (_published_invalid_once mc); reflexivity.
Qed.

Lemma commands_of_valid (c1 c2 : bool) (t1 t2 : Z) (sp : Sp.manual_control_setpoint_s) :
  commands ((if c1 then [send_arm_command t1] else [])
            ++ (if c2 then [send_disarm_command t2] else []) ++ [Publish sp])
  = (if c1 then [mk_command t1 VEHICLE_CMD_COMPONENT_ARM_DISARM F32.c1_0 F32.c1_0 1 1]
     else [])
    ++ (if c2 then [mk_command t2 VEHICLE_CMD_COMPONENT_ARM_DISARM F32.c0_0 F32.c1_0 1 1]
        else []).
Proof. destruct c1, c2; reflexivity. Qed.

(** X1. Every command a cycle sends is the arm/disarm command addressed to
    system 1, component 1, with 1.0 in [param3] as the mark of the stick
    origin; [param1] is 1.0 with the time read by the arm sender, or 0.0
    with the time read by the disarm sender.  Cycles that exit or whose
    setpoint is invalid send no command at all. *)
Theorem commands_well_formed (mc : MC) (io : IO) :
  Forall (stick_command io) (commands (snd (Run mc io)))
  /\ (cycle_valid mc io = false -> commands (snd (Run mc io)) = []).
Proof.
  destruct (cycle_cases mc io) as [X | [V | I]].
  - rewrite (Run_exit _ _ X). split; [constructor | reflexivity].
  - split; [|congruence]. rewrite (Run_valid_events _ _ V), commands_of_valid.
    apply Forall_app. split;
      match goal with |- Forall _ (if ?c then _ else _) => destruct c end;
      repeat constructor; unfold stick_command; cbn [command param1 param3 target_system
        target_component cmd_timestamp]; tauto.
  - rewrite (Run_invalid_events _ _ I).
    destruct (_published_invalid_once mc); split; try constructor; reflexivity.
Qed.

(** X2. A cycle publishes at most one setpoint, and a valid cycle exactly
    one, after the commands: the setpoint is the last thing sent.  It has
    the axis values, the data source and the validity of the setpoint the
    selector handed over; only the three flags and the time stamp are
    written. *)
Theorem one_setpoint_per_cycle (mc : MC) (io : IO) :
  (length (published (snd (Run mc io))) <= 1)%nat
  /\ (cycle_valid mc io = true ->
      exists out,
        published (snd (Run mc io)) = [out]
        /\ last (snd (Run mc io)) (Publish out) = Publish out
        /\ snd (Run mc io) <> []
        /\ Sp.x out = Sp.x (selected mc io)
        /\ Sp.y out = Sp.y (selected mc io)
        /\ Sp.z out = Sp.z (selected mc io)
        /\ Sp.r out = Sp.r (selected mc io)
        /\ Sp.data_source out = Sp.data_source (selected mc io)
        /\ Sp.valid out = true).
Proof.
  split.
  - destruct (cycle_cases mc io) as [X | [V | I]].
    + rewrite (Run_exit _ _ X). cbn. lia.
    + destruct (Run_valid_eq _ _ V) as (sel' & last & _ & -> & _). cbn. lia.
    + rewrite (Run_invalid_events _ _ I).
      destruct (_published_invalid_once mc); cbn; lia.
  - intros V.
    exists (annotated (hrt_now io) (check_parameters (parameter_update io) mc)
              (selected mc io)).
    rewrite (Run_valid_events _ _ V).
    split; [apply published_commands; reflexivity|].
    split; [|split].
    + rewrite app_assoc. apply last_last.
    + intros E. apply (f_equal (@length Event)) in E. rewrite !length_app in E.
      cbn [length] in E. lia.
    + unfold annotated. sp_proj. repeat split.
      unfold cycle_valid in V. apply andb_true_iff in V as [_ V]. exact V.
Qed.

(** X3. A command goes with its flag: when a cycle sends an arm command,
    the cycle is a valid one, the setpoint it publishes has [arm_gesture]
    up, and the edge memory was down before; likewise for the disarm
    command and [disarm_gesture]. *)
Theorem command_goes_with_flag (mc : MC) (io : IO) :
  ((0 < count is_arm_command (snd (Run mc io)))%nat ->
   cycle_valid mc io = true
   /\ map Sp.arm_gesture (published (snd (Run mc io))) = [true]
   /\ _previous_arm_gesture mc = false)
  /\ ((0 < count is_disarm_command (snd (Run mc io)))%nat ->
      cycle_valid mc io = true
      /\ map Sp.disarm_gesture (published (snd (Run mc io))) = [true]
      /\ _previous_disarm_gesture mc = false).
Proof.
  destruct (cycle_cases mc io) as [X | [V | I]].
  - rewrite (Run_exit _ _ X). cbn. split; intros H; exfalso; lia.
  - destruct (Run_valid_eq _ _ V) as (sel' & last & _ & P & F).
    rewrite P. rewrite (Run_valid_events _ _ V), F. clear P F.
    unfold confirmed_arm, confirmed_disarm, annotated.
    cbn [_stick_arm_hysteresis _stick_disarm_hysteresis map]. sp_proj.
    rewrite !count_app, count_arm_of_arm, count_arm_of_disarm,
      count_disarm_of_arm, count_disarm_of_disarm.
    destruct (Hysteresis.get_state (arm_timer_after _ _)),
      (Hysteresis.get_state (disarm_timer_after _ _)),
      (_previous_arm_gesture mc), (_previous_disarm_gesture mc);
      cbn; split; intros H; try (exfalso; lia); repeat split; try reflexivity; exact V.
  - rewrite (Run_invalid_events _ _ I).
    destruct (_published_invalid_once mc); cbn; split; intros H; exfalso; lia.
Qed.

Lemma unconfirmed_timers_exclusive (a d : Hysteresis.t) :
  Hysteresis.hold_from_true a = 0 -> Hysteresis.hold_from_true d = 0 ->
  0 <= Hysteresis.hold_from_false a -> 0 <= Hysteresis.hold_from_false d ->
  Hysteresis.confirmed a = false -> Hysteresis.confirmed d = false ->
  timers_exclusive a d.
Proof.
  intros Ta Td Fa Fd Ca Cd. unfold timers_exclusive. rewrite Ca, Cd.
  repeat split; try assumption; discriminate.
Qed.

Lemma Run_one_command (mc : MC) (io : IO) :
  timers_exclusive (_stick_arm_hysteresis mc) (_stick_disarm_hysteresis mc) ->
  (count is_arm_command (snd (Run mc io))
   + count is_disarm_command (snd (Run mc io)) <= 1)%nat.
Proof.
  intros T. pose proof (Run_exclusive mc io T) as (_ & _ & _ & _ & X & _).
  destruct (cycle_cases mc io) as [E | [V | I]].
  - rewrite (Run_exit _ _ E). cbn. lia.
  - rewrite (Run_valid_events _ _ V).
    rewrite !count_app, count_arm_of_arm, count_arm_of_disarm,
      count_disarm_of_arm, count_disarm_of_disarm.
    unfold confirmed_arm, confirmed_disarm, Hysteresis.get_state.
    destruct (Hysteresis.confirmed (_stick_arm_hysteresis (fst (Run mc io)))),
      (Hysteresis.confirmed (_stick_disarm_hysteresis (fst (Run mc io))));
      try (exfalso; apply X; reflexivity);
      destruct (_previous_arm_gesture mc), (_previous_disarm_gesture mc); cbn; lia.
  - rewrite (Run_invalid_events _ _ I). destruct (_published_invalid_once mc); cbn; lia.
Qed.

(** X4. Never an arm and a disarm command from the same cycle.  Started
    with both gestures unconfirmed, no hold when leaving true and a hold
    when leaving false that is not negative, in every run each cycle sends
    at most one command in all. *)
Theorem one_command_per_cycle (mc : MC) (ios : list IO) :
  Hysteresis.hold_from_true (_stick_arm_hysteresis mc) = 0 ->
  Hysteresis.hold_from_true (_stick_disarm_hysteresis mc) = 0 ->
  0 <= Hysteresis.hold_from_false (_stick_arm_hysteresis mc) ->
  0 <= Hysteresis.hold_from_false (_stick_disarm_hysteresis mc) ->
  confirmed_arm mc = false ->
  confirmed_disarm mc = false ->
  Forall (fun c => (count is_arm_command (snd c) + count is_disarm_command (snd c) <= 1)%nat)
         (run_cycles mc ios).
Proof.
  intros Ta Td Fa Fd Ca Cd.
  pose proof (unconfirmed_timers_exclusive _ _ Ta Td Fa Fd Ca Cd) as T.
  clear Ta Td Fa Fd Ca Cd. revert mc T.
  induction ios as [|io ios IH]; intros mc T; cbn [run_cycles]; constructor.
  - apply Run_one_command, T.
  - apply IH, Run_exclusive, T.
Qed.

(** ** Publications of the invalid setpoint over a run *)

Lemma invalid_published_one (sp : Sp.manual_control_setpoint_s) :
  invalid_published [Publish sp] = if Sp.valid sp then 0%nat else 1%nat.
Proof. unfold invalid_published. cbn. destruct (Sp.valid sp); reflexivity. Qed.

(** X5. Over any run of cycles, the setpoints published with the validity
    flag down are at most one more than the valid cycles of the run, and no
    more than those when the run starts with the latch set: every
    publication of an invalid setpoint but the first needs a valid cycle
    before it. *)
Theorem invalid_publications_bounded (mc : MC) (ios : list IO) :
  (total (fun c => invalid_published (snd c)) (run_cycles mc ios)
   <= valid_cycles mc ios + (if _published_invalid_once mc then 0 else 1))%nat.
Proof.
  revert mc. induction ios as [|io ios IH]; intros mc.
  - cbn. lia.
  - cbn [run_cycles total fold_right valid_cycles].
    fold (total (fun c : MC * list Event => invalid_published (snd c))
                (run_cycles (fst (Run mc io)) ios)).
    specialize (IH (fst (Run mc io))).
    destruct (cycle_cases mc io) as [X | [V | I]].
    + assert (cycle_valid mc io = false) as -> by (unfold cycle_valid; rewrite X; reflexivity).
      rewrite (Run_exit _ _ X) in *. cbn [fst snd] in *.
      change (invalid_published []) with 0%nat. lia.
    + rewrite V.
      destruct (Run_valid_eq _ _ V) as (sel' & last & _ & P & F).
      assert (invalid_published (snd (Run mc io)) = 0%nat) as ->.
      { unfold invalid_published. rewrite P. unfold annotated. cbn [filter]. sp_proj.
        unfold cycle_valid in V. apply andb_true_iff in V as [_ ->]. reflexivity. }
      assert (L : _published_invalid_once (fst (Run mc io)) = false)
        by (rewrite F; reflexivity).
      rewrite L in IH. destruct (_published_invalid_once mc); lia.
    + rewrite (valid_not_invalid_conv _ _ I).
      rewrite (Run_invalid_latch _ _ I) in IH.
      rewrite (Run_invalid_events _ _ I).
      destruct (_published_invalid_once mc).
      * change (invalid_published []) with 0%nat. lia.
      * rewrite invalid_published_one.
        unfold cycle_invalid in I. apply andb_true_iff in I as [_ I].
        apply negb_true_iff in I. rewrite I. lia.
Qed.

(** ** The remembered slot *)

Lemma run_valid_last_selected (io : IO) (mc : MC) (sel : Sel) :
  _last_selected_input (fst (run_valid io mc sel))
  = instance (_selector (fst (run_valid io mc sel))).
Proof.
  unfold run_valid. cbv zeta. rewrite if_same2.
  repeat match goal with
         | |- context [if ?c then (?u, ?v) else _] => destruct c
         end;
    cbn [fst _last_selected_input _selector];
    match goal with |- (if ?u =? ?v then _ else _) = _ => destruct (Z.eqb_spec u v) end;
    congruence.
Qed.

(** X6. The remembered slot follows the selector: after a valid cycle
    [_last_selected_input] is the slot index the selector reports, whether
    it changed in this cycle or not, and after an invalid cycle it is -1. *)
Theorem remembered_slot (mc : MC) (io : IO) :
  (cycle_valid mc io = true ->
   _last_selected_input (fst (Run mc io)) = instance (_selector (fst (Run mc io))))
  /\ (cycle_invalid mc io = true -> _last_selected_input (fst (Run mc io)) = -1).
Proof.
  split.
  - intros V. rewrite (Run_valid _ _ V). apply run_valid_last_selected.
  - intros I. destruct (Run_invalid_eq _ _ I) as [_ ->]. reflexivity.
Qed.

(** ** Sticks that do not move *)

(** X7. No override from sticks that stand still.  When a valid cycle
    follows a valid cycle with the same four axis values in the selected
    setpoint, and [minimum_stick_change] (0.01 times the override
    parameter, as reloaded in the second cycle if it is) is not negative,
    the second cycle publishes [user_override] false; this holds for every
    axis value, finite or not. *)
Theorem still_sticks_no_override (mc : MC) (io1 io2 : IO) :
  cycle_valid mc io1 = true ->
  cycle_valid (fst (Run mc io1)) io2 = true ->
  Sp.x (selected (fst (Run mc io1)) io2) = Sp.x (selected mc io1) ->
  Sp.y (selected (fst (Run mc io1)) io2) = Sp.y (selected mc io1) ->
  Sp.z (selected (fst (Run mc io1)) io2) = Sp.z (selected mc io1) ->
  Sp.r (selected (fst (Run mc io1)) io2) = Sp.r (selected mc io1) ->
  F32.lt (F32.mul F32.c0_01
            (_param_com_rc_stick_ov
               (check_parameters (parameter_update io2) (fst (Run mc io1)))))
         F32.c0_0 = false ->
  map Sp.user_override (published (snd (Run (fst (Run mc io1)) io2))) = [false].
Proof.
  intros V1 V2 Ex Ey Ez Er M.
  destruct (Run_valid_eq _ _ V2) as (sel2 & last2 & _ & -> & _).
  cbn [map]. unfold annotated, rpy_moved, throttle_moved, minimum_stick_change. sp_proj.
  destruct (check_parameters_previous_axes (parameter_update io2) (fst (Run mc io1)))
    as (-> & -> & -> & ->).
  rewrite Ex, Ey, Ez, Er.
  assert (P : _previous_x (fst (Run mc io1)) = Sp.x (selected mc io1)
              /\ _previous_y (fst (Run mc io1)) = Sp.y (selected mc io1)
              /\ _previous_z (fst (Run mc io1)) = Sp.z (selected mc io1)
              /\ _previous_r (fst (Run mc io1)) = Sp.r (selected mc io1)).
  { destruct (Run_valid_eq _ _ V1) as (sel1 & last1 & _ & _ & ->). repeat split. }
  destruct P as (-> & -> & -> & ->).
  rewrite (proj1 (still_axis (Sp.x (selected mc io1)) _ M)),
    (proj1 (still_axis (Sp.y (selected mc io1)) _ M)),
    (proj1 (still_axis (Sp.r (selected mc io1)) _ M)),
    (proj2 (still_axis (Sp.z (selected mc io1)) _ M)).
  reflexivity.
Qed.

(** ** The edge memory *)

(** X8. The edge memory is kept right by the cycle itself: after a valid
    cycle it agrees with the confirmed gesture states whatever it was
    before, and a cycle that starts with it in agreement ends with it in
    agreement. *)
Theorem edge_memory_restored (mc : MC) (io : IO) :
  (cycle_valid mc io = true -> edge_memory_ok (fst (Run mc io)))
  /\ (edge_memory_ok mc -> edge_memory_ok (fst (Run mc io))).
Proof.
  split.
  - intros V. destruct (Run_valid_eq _ _ V) as (sel' & last & _ & _ & ->).
    split; reflexivity.
  - intros E. apply (Run_edges mc io E).
Qed.

(** ** The holds of the timers over a run *)

Lemma Run_holds (mc : MC) (io : IO) :
  Hysteresis.hold_from_true (_stick_arm_hysteresis (fst (Run mc io)))
  = Hysteresis.hold_from_true (_stick_arm_hysteresis mc)
  /\ Hysteresis.hold_from_true (_stick_disarm_hysteresis (fst (Run mc io)))
     = Hysteresis.hold_from_true (_stick_disarm_hysteresis mc)
  /\ (parameter_update io = None ->
      Hysteresis.hold_from_false (_stick_arm_hysteresis (fst (Run mc io)))
      = Hysteresis.hold_from_false (_stick_arm_hysteresis mc)
      /\ Hysteresis.hold_from_false (_stick_disarm_hysteresis (fst (Run mc io)))
         = Hysteresis.hold_from_false (_stick_disarm_hysteresis mc)).
Proof.
  destruct (check_parameters_not_fed (parameter_update io) mc)
    as ((_ & _ & _ & Ta) & (_ & _ & _ & Td)).
  destruct (cycle_cases mc io) as [X | [V | I]].
  - rewrite (Run_exit _ _ X). repeat split.
  - destruct (Run_valid_eq _ _ V) as (sel' & last & _ & _ & ->).
    cbn [_stick_arm_hysteresis _stick_disarm_hysteresis].
    unfold arm_timer_after, disarm_timer_after.
    rewrite !update_hold_from_true, !update_hold_from_false.
    split; [exact Ta|]. split; [exact Td|]. intros ->. split; reflexivity.
  - destruct (Run_invalid_eq _ _ I) as [_ ->].
    cbn [_stick_arm_hysteresis _stick_disarm_hysteresis].
    split; [exact Ta|]. split; [exact Td|]. intros ->. split; reflexivity.
Qed.

(** X9. Over any run of cycles the hold for leaving true of both timers
    stays what it was at the start, and the hold for leaving false stays
    what it was as long as no cycle of the run has a pending parameter
    update. *)
Theorem holds_over_a_run (mc : MC) (ios : list IO) :
  Hysteresis.hold_from_true (_stick_arm_hysteresis (final mc ios))
  = Hysteresis.hold_from_true (_stick_arm_hysteresis mc)
  /\ Hysteresis.hold_from_true (_stick_disarm_hysteresis (final mc ios))
     = Hysteresis.hold_from_true (_stick_disarm_hysteresis mc)
  /\ (Forall (fun io => parameter_update io = None) ios ->
      Hysteresis.hold_from_false (_stick_arm_hysteresis (final mc ios))
      = Hysteresis.hold_from_false (_stick_arm_hysteresis mc)
      /\ Hysteresis.hold_from_false (_stick_disarm_hysteresis (final mc ios))
         = Hysteresis.hold_from_false (_stick_disarm_hysteresis mc)).
Proof.
  revert mc. induction ios as [|io ios IH]; intros mc; [repeat split|].
  rewrite final_cons. destruct (IH (fst (Run mc io))) as (-> & -> & F).
  destruct (Run_holds mc io) as (-> & -> & G).
  split; [reflexivity|]. split; [reflexivity|].
  intros N. inversion N as [|? ? U N']; subst.
  destruct (F N') as [-> ->]. exact (G U).
Qed.

(** ** Feeding the selector *)

Lemma poll_inputs_arrivals (now : Z) (subs : nat -> option manual_control_input_s)
      (n i : nat) (found : bool) (sel : Sel) :
  let arrived := flat_map (fun k => match subs k with
                                    | Some m => [(k, m)]
                                    | None => []
                                    end) (seq i n) in
  poll_inputs now subs i n found sel
  = (fold_left (feed now) arrived sel,
     found || match arrived with [] => false | _ :: _ => true end).
Proof.
  cbv zeta. revert i found sel. induction n as [|n IH]; intros i found sel.
  - cbn. rewrite orb_false_r. reflexivity.
  - cbn [poll_inputs seq flat_map]. destruct (subs i) as [m|].
    + rewrite IH. cbn [app fold_left]. unfold feed at 2. cbn [fst snd].
      f_equal. rewrite orb_true_r. reflexivity.
    + rewrite IH. reflexivity.
Qed.

(** X10. What the selector is fed in a cycle: when no subscription below
    [MAX_MANUAL_INPUT_COUNT] delivered a sample, one [update_time_only] at
    the clock value of the cycle and nothing else; otherwise every arrived
    sample once, in slot order, each with its slot index and the same clock
    value, and no [update_time_only]. *)
Theorem selector_fed_arrivals (io : IO) (sel : Sel) :
  ingest io sel =
    match arrivals io with
    | [] => update_time_only (hrt_now io) sel
    | _ :: _ => fold_left (feed (hrt_now io)) (arrivals io) sel
    end.
Proof.
  unfold ingest, arrivals. rewrite poll_inputs_arrivals. cbv zeta.
  destruct (flat_map _ _); reflexivity.
Qed.

(** X11. Subscriptions at or beyond [MAX_MANUAL_INPUT_COUNT] are never
    read: two cycles whose deliveries agree below the bound, all else
    equal, end in the same state and send the same events. *)
Theorem inputs_beyond_bound_ignored (mc : MC) (io : IO)
        (f g : nat -> option manual_control_input_s) :
  (forall i, (i < MAX_MANUAL_INPUT_COUNT)%nat -> f i = g i) ->
  Run mc (with_inputs f io) = Run mc (with_inputs g io).
Proof.
  intros A.
  assert (E : forall sel, ingest (with_inputs f io) sel = ingest (with_inputs g io) sel).
  { intros sel. unfold ingest, with_inputs. cbn [_manual_control_input_subs hrt_now].
    rewrite !poll_inputs_arrivals. cbv zeta.
    rewrite (flat_map_agree _ _
               (fun k => match f k with Some m => [(k, m)] | None => [] end)
               (fun k => match g k with Some m => [(k, m)] | None => [] end));
      [reflexivity|].
    intros i Hi. apply in_seq in Hi. rewrite A by lia. reflexivity. }
  unfold Run. cbn [should_exit parameter_update with_inputs].
  destruct (should_exit io); [reflexivity|].
  fold (with_inputs f io). fold (with_inputs g io). rewrite E.
  destruct (Sp.valid _); reflexivity.
Qed.

End MoreCycleProperties.

(** * More of the cycle at work on the one-slot selector *)

Section MoreOnOneSlot.

Import OneSlot.

Lemma commands_well_formed_witness :
  cycle_valid fresh (cycle None 2400000 None) = false
  /\ commands (snd (Run fresh (cycle None 2400000 None))) = [].
Proof.
  assert (V : cycle_valid fresh (cycle None 2400000 None) = false) by reflexivity.
  split; [exact V|].
  exact (proj2 (commands_well_formed fresh (cycle None 2400000 None)) V).
Defined.

Lemma one_setpoint_per_cycle_witness :
  cycle_valid armed (arm_cycle 1600000) = true
  /\ exists out,
      published (snd (Run armed (arm_cycle 1600000))) = [out]
      /\ Sp.r out = Sp.r (selected armed (arm_cycle 1600000))
      /\ Sp.valid out = true.
Proof.
  assert (V : cycle_valid armed (arm_cycle 1600000) = true) by reflexivity.
  split; [exact V|].
  destruct (proj2 (one_setpoint_per_cycle armed (arm_cycle 1600000)) V)
    as (out & P & _ & _ & _ & _ & _ & R & _ & Vo).
  exists out. repeat split; assumption.
Defined.

(** The third cycle of [hold_release_hold] is the one that sends the arm
    command. *)
Lemma command_goes_with_flag_witness :
  (0 < count is_arm_command
         (snd (Run (final fresh (firstn 2 hold_release_hold))
                   (cycle None 1400000 (Some (arm_stick 1400000))))))%nat
  /\ map Sp.arm_gesture
         (published (snd (Run (final fresh (firstn 2 hold_release_hold))
                              (cycle None 1400000 (Some (arm_stick 1400000))))))
     = [true].
Proof.
  assert (H : (0 < count is_arm_command
                     (snd (Run (final fresh (firstn 2 hold_release_hold))
                               (cycle None 1400000 (Some (arm_stick 1400000))))))%nat)
    by (vm_compute; lia).
  split; [exact H|].
  exact (proj1 (proj2 (proj1 (command_goes_with_flag
                                (final fresh (firstn 2 hold_release_hold))
                                (cycle None 1400000 (Some (arm_stick 1400000)))) H))).
Defined.

Lemma one_command_per_cycle_witness :
  Hysteresis.hold_from_true (_stick_arm_hysteresis fresh) = 0
  /\ Hysteresis.hold_from_true (_stick_disarm_hysteresis fresh) = 0
  /\ 0 <= Hysteresis.hold_from_false (_stick_arm_hysteresis fresh)
  /\ 0 <= Hysteresis.hold_from_false (_stick_disarm_hysteresis fresh)
  /\ confirmed_arm fresh = false
  /\ confirmed_disarm fresh = false
  /\ Forall (fun c => (count is_arm_command (snd c)
                       + count is_disarm_command (snd c) <= 1)%nat)
            (run_cycles fresh arm_then_disarm).
Proof.
  repeat (split; [first [reflexivity | simpl; lia]|]).
  apply (one_command_per_cycle fresh arm_then_disarm);
    first [reflexivity | simpl; lia].
Defined.

Lemma remembered_slot_witness :
  cycle_valid fresh (arm_cycle 1000000) = true
  /\ _last_selected_input (fst (Run fresh (arm_cycle 1000000)))
     = instance (_selector (fst (Run fresh (arm_cycle 1000000))))
  /\ cycle_invalid armed (cycle None 2400000 None) = true
  /\ _last_selected_input (fst (Run armed (cycle None 2400000 None))) = -1.
Proof.
  assert (V : cycle_valid fresh (arm_cycle 1000000) = true) by reflexivity.
  assert (I : cycle_invalid armed (cycle None 2400000 None) = true) by reflexivity.
  split; [exact V|].
  split; [exact (proj1 (remembered_slot fresh (arm_cycle 1000000)) V)|].
  split; [exact I|].
  exact (proj2 (remembered_slot armed (cycle None 2400000 None)) I).
Defined.

(** The arm stick held over two cycles: the threshold is 0.12, nothing
    moved, no override. *)
Lemma still_sticks_no_override_witness :
  cycle_valid armed (arm_cycle 1600000) = true
  /\ cycle_valid (fst (Run armed (arm_cycle 1600000))) (arm_cycle 1800000) = true
  /\ map Sp.user_override
         (published (snd (Run (fst (Run armed (arm_cycle 1600000))) (arm_cycle 1800000))))
     = [false].
Proof.
  assert (V1 : cycle_valid armed (arm_cycle 1600000) = true) by reflexivity.
  assert (V2 : cycle_valid (fst (Run armed (arm_cycle 1600000))) (arm_cycle 1800000)
               = true) by reflexivity.
  split; [exact V1|]. split; [exact V2|].
  apply (still_sticks_no_override armed (arm_cycle 1600000) (arm_cycle 1800000) V1 V2);
    reflexivity.
Defined.

Lemma edge_memory_restored_witness :
  cycle_valid held (arm_cycle 1000000) = true
  /\ edge_memory_ok (fst (Run held (arm_cycle 1000000)))
  /\ edge_memory_ok fresh
  /\ edge_memory_ok (fst (Run fresh (cycle None 2400000 None))).
Proof.
  assert (V : cycle_valid held (arm_cycle 1000000) = true) by reflexivity.
  assert (E : edge_memory_ok fresh) by (split; reflexivity).
  split; [exact V|].
  split; [exact (proj1 (edge_memory_restored held (arm_cycle 1000000)) V)|].
  split; [exact E|].
  exact (proj2 (edge_memory_restored fresh (cycle None 2400000 None)) E).
Defined.

Lemma holds_over_a_run_witness :
  Forall (fun io => parameter_update io = None) silence
  /\ Hysteresis.hold_from_false (_stick_arm_hysteresis (final armed silence))
     = Hysteresis.hold_from_false (_stick_arm_hysteresis armed)
  /\ Hysteresis.hold_from_true (_stick_arm_hysteresis (final held hold_release_hold)) = 7.
Proof.
  assert (N : Forall (fun io => parameter_update io = None) silence)
    by (repeat constructor).
  split; [exact N|].
  split.
  - exact (proj1 (proj2 (proj2 (holds_over_a_run armed silence)) N)).
  - exact (proj1 (holds_over_a_run held hold_release_hold)).
Defined.

(** A delivery on subscription 5 is beyond the three that are read. *)
Lemma inputs_beyond_bound_ignored_witness :
  Run fresh (with_inputs (fun i => match i with
                                   | 0%nat => Some (arm_stick 1000000)
                                   | 5%nat => Some (disarm_stick 1000000)
                                   | _ => None
                                   end) (cycle None 1000000 None))
  = Run fresh (with_inputs (fun i => match i with
                                     | 0%nat => Some (arm_stick 1000000)
                                     | _ => None
                                     end) (cycle None 1000000 None)).
Proof.
  apply (inputs_beyond_bound_ignored fresh (cycle None 1000000 None)).
  intros i Hi. do 3 (destruct i as [|i]; [reflexivity|]). simpl in Hi. lia.
Defined.

End MoreOnOneSlot.
